(** * Verification of llm-model-analysis: dashboard pages, data API route and
    the evaluation pipeline's data model.

    Numbers of the JSON documents are finite IEEE doubles; the dashboard only
    compares, adds and subtracts them, so they are modelled as rationals [Q]. *)

From Stdlib Require Import QArith Qround ZArith String Ascii Bool Sorted.
From stdpp Require Import base gmap strings list.

#[local] Set Warnings "-register-all".

(** ** JavaScript evaluation: a value, or a thrown exception *)

Inductive js (A : Type) : Type :=
| Ok (a : A)
| Throw.
Arguments Ok {A} a.
Arguments Throw {A}.

Global Instance js_ret : MRet js := fun A a => Ok a.
Global Instance js_bind : MBind js :=
  fun A B f m => match m with Ok a => f a | Throw => Throw end.

(** [a > b] on JavaScript numbers. *)
Definition Qgtb (a b : Q) : bool := negb (Qle_bool a b).

(** [x.toFixed(f)] for |x| < 1e21: the sign ("-" when [x < 0]) and the
    integer [n] whose digits are shown, [n / 10^f] being the nearest to |x|,
    the larger one on a tie. *)
Definition toFixed (f : nat) (x : Q) : bool * Z :=
  let neg := Qgtb 0 x in
  let ax := if neg then (- x)%Q else x in
  (neg, Qfloor (ax * inject_Z (10 ^ Z.of_nat f) + (1 # 2))%Q).

(** [xs.forEach(...)] with a callback that updates local counters. *)
Fixpoint forEach_js {A S : Type} (f : S -> A -> js S) (l : list A) (s : S) : js S :=
  match l with
  | [] => mret s
  | x :: l' => s' ← f s x; forEach_js f l' s'
  end.

(** ** Dashboard: src/app/compare/page.tsx and src/app/details/page.tsx *)
Module Dashboard.

Record ResponseGrade := mkGrade {
  on_topic : Q; grounded : Q; no_contradiction : Q;
  understandability : Q; overall : Q; average : Q }.

(** [grade] is declared [ResponseGrade] in the interface; the JSON document
    may still hold [null] there, hence [option]. *)
Record QuestionResponse := mkResponse {
  response : option string;
  latency_ms : Q;
  input_tokens : Q;
  output_tokens : Q;
  cost : Q;
  grade : option ResponseGrade;
  error : option string }.

Record Question := mkQuestion {
  id : Z;
  question : string;
  context : string;
  responses : gmap string QuestionResponse }.

Record ModelCosts := mkCosts { total_cost : Q }.

Record ModelSummary := mkSummary {
  name : string;
  avg_score : Q;
  avg_latency_ms : Q;
  costs : ModelCosts }.

Record Metadata := mkMetadata {
  num_questions : Z;
  num_models : Z;
  model_keys : list string }.

Record EvaluationData := mkData {
  metadata : Metadata;
  models : gmap string ModelSummary;
  questions : list Question }.

(** Reading [r.grade.average]: a TypeError when [grade] is null. *)
Definition read_average (g : option ResponseGrade) : js Q :=
  match g with Some g => mret (average g) | None => Throw end.

Record Comparison := mkComparison {
  scoreDiff : Q; latencyDiff : Q; costDiff : Q;
  modelAWins : nat; modelBWins : nat; ties : nat }.

(** The body of [data.questions.forEach((q) => ...)] in the comparison memo. *)
Definition count_question (modelAKey modelBKey : string)
    (acc : nat * nat * nat) (q : Question) : js (nat * nat * nat) :=
  let '(aw, bw, t) := acc in
  match responses q !! modelAKey, responses q !! modelBKey with
  | Some respA, Some respB =>
      a ← read_average (grade respA);
      b ← read_average (grade respB);
      if Qgtb a b then mret (S aw, bw, t)
      else
        b' ← read_average (grade respB);
        a' ← read_average (grade respA);
        if Qgtb b' a' then mret (aw, S bw, t) else mret (aw, bw, S t)
  | _, _ => mret acc
  end.

(** The [comparison] memo of [ComparePage]; [None] is its [null]. *)
Definition comparison (data : option EvaluationData) (modelAKey modelBKey : string)
    : js (option Comparison) :=
  match data with
  | None => mret None
  | Some d =>
      match models d !! modelAKey, models d !! modelBKey with
      | Some modelA, Some modelB =>
          let scoreDiff := (avg_score modelA - avg_score modelB)%Q in
          let latencyDiff := (avg_latency_ms modelA - avg_latency_ms modelB)%Q in
          let costDiff := (total_cost (costs modelA) - total_cost (costs modelB))%Q in
          '(aw, bw, t) ← forEach_js (count_question modelAKey modelBKey)
                                    (questions d) (0, 0, 0)%nat;
          mret (Some (mkComparison scoreDiff latencyDiff costDiff aw bw t))
      | _, _ => mret None
      end
  end.

Inductive Winner := Model1Higher | Model2Higher | Tie.

(** [GradeDisplay]: reads the five dimensions of [grade]. *)
Definition grade_display (g : option ResponseGrade) : js (list Q) :=
  match g with
  | Some g => mret [on_topic g; grounded g; no_contradiction g;
                    understandability g; overall g]
  | None => Throw
  end.

(** The winner indicator at the bottom of a question card of [DetailsPage]. *)
Definition winner_indicator (resp1 resp2 : QuestionResponse) : js Winner :=
  a ← read_average (grade resp1);
  b ← read_average (grade resp2);
  if Qgtb a b then mret Model1Higher
  else
    b' ← read_average (grade resp2);
    a' ← read_average (grade resp1);
    if Qgtb b' a' then mret Model2Higher else mret Tie.

(** One question card of [DetailsPage]: [null] when a response is missing. *)
Definition details_card (model1Key model2Key : string) (q : Question)
    : js (option (list Q * list Q * Winner)) :=
  match responses q !! model1Key, responses q !! model2Key with
  | Some resp1, Some resp2 =>
      g1 ← grade_display (grade resp1);
      g2 ← grade_display (grade resp2);
      w ← winner_indicator resp1 resp2;
      mret (Some (g1, g2, w))
  | _, _ => mret None
  end.

Fixpoint map_js {A B : Type} (f : A -> js B) (l : list A) : js (list B) :=
  match l with
  | [] => mret []
  | x :: l' => y ← f x; ys ← map_js f l'; mret (y :: ys)
  end.

(** [data.questions.map(...)] of [DetailsPage]. *)
Definition details_cards (data : EvaluationData) (model1Key model2Key : string)
    : js (list (option (list Q * list Q * Winner))) :=
  map_js (details_card model1Key model2Key) (questions data).

End Dashboard.

(** ** JavaScript string predicates *)

(** [s.startsWith(p)]. *)
Definition startsWith (s p : string) : bool := String.prefix p s.

(** [s.endsWith(suf)]. *)
Definition endsWith (s suf : string) : bool :=
  let n := String.length s in
  let m := String.length suf in
  (m <=? n)%nat && String.eqb (String.substring (n - m) m s) suf.

(** ** src/app/api/comparisons/route.ts *)
Module ComparisonsRoute.

(** What [fs.existsSync] and [fs.readdirSync] find at public/data. *)
Inductive DataDir :=
| Missing
| Unreadable                      (** exists, but [readdirSync] throws *)
| Listing (files : list string).

Record FsState := mkFs {
  cwd_ok : bool;                  (** [process.cwd()] throws when false *)
  data_dir : DataDir }.

Definition process_cwd (fs : FsState) : js unit :=
  if cwd_ok fs then mret tt else Throw.

Definition existsSync (fs : FsState) : bool :=
  match data_dir fs with Missing => false | _ => true end.

Definition readdirSync (fs : FsState) : js (list string) :=
  match data_dir fs with
  | Listing files => mret files
  | _ => Throw
  end.

Definition is_comparison_file (f : string) : bool :=
  startsWith f "comparison_" && endsWith f ".json".

Definition try_catch {A : Type} (body handler : js A) : js A :=
  match body with Ok a => Ok a | Throw => handler end.

(** The handler; the returned list is the body of [NextResponse.json]. *)
Definition GET (fs : FsState) : js (list string) :=
  try_catch
    (_ ← process_cwd fs;
     if negb (existsSync fs) then mret []
     else
       files ← readdirSync fs;
       mret (filter (fun f => is_comparison_file f = true) files))
    (mret []).

End ComparisonsRoute.

(** ** getAllModels of src/unnamed/part_001 (the models leaderboard page) *)
Module ModelsPage.

Record Usage := mkUsage { total_input_tokens : Q; total_output_tokens : Q }.
Record Costs := mkCosts { total_cost : Q }.

Record UnifiedModelData := mkUnified {
  u_name : string; u_model_id : string; u_api_type : string;
  u_reasoning_effort : option string; u_verbosity : option string;
  u_successful_responses : Q; u_avg_score : Q; u_avg_latency_ms : Q;
  u_usage : option Usage; u_costs : option Costs }.

(** [models] of the unified file, in the order of [Object.entries]. *)
Record UnifiedEvaluationData := mkUnifiedData {
  u_models : list (string * UnifiedModelData) }.

Record LegacyModelSummary := mkLegacy {
  l_name : string; l_model_id : string; l_api_type : string;
  l_reasoning_effort : option string; l_verbosity : option string;
  l_total_cost : option Q; l_avg_latency_ms : Q; l_avg_score : Q;
  l_successful_responses : Q;
  l_usage : option Usage; l_costs : option Costs }.

Record LegacyComparisonData := mkLegacyData {
  model1 : LegacyModelSummary; model2 : LegacyModelSummary }.

Record NormalizedModel := mkNormalized {
  key : string; name : string; model_id : string; api_type : string;
  reasoning_effort : option string; verbosity : option string;
  avg_score : Q; avg_latency_ms : Q; n_total_cost : Q;
  n_total_input_tokens : Q; n_total_output_tokens : Q;
  successful_responses : Q }.

(** The data directory: [readdir] listing and the parsed content of each
    file, read as the unified or as the legacy shape. This is a directory
    that exists and whose files parse: [getAllModels] has no try/catch, so
    when [readdir] or [JSON.parse] rejects, [getAllModels] rejects and the
    page errors; that case is outside this model. *)
Record DataDir := mkDir {
  files : list string;
  unified_file : UnifiedEvaluationData;
  legacy_file : string -> LegacyComparisonData }.

(** [a ?? b] on an optional number. *)
Definition nullish (a : option Q) (b : Q) : Q :=
  match a with Some x => x | None => b end.

Definition usage_input (u : option Usage) : option Q := option_map total_input_tokens u.
Definition usage_output (u : option Usage) : option Q := option_map total_output_tokens u.
Definition costs_total (c : option Costs) : option Q := option_map total_cost c.

Definition normalize_unified (e : string * UnifiedModelData) : NormalizedModel :=
  let '(k, model) := e in
  mkNormalized k (u_name model) (u_model_id model) (u_api_type model)
    (u_reasoning_effort model) (u_verbosity model)
    (u_avg_score model) (u_avg_latency_ms model)
    (nullish (costs_total (u_costs model)) 0)
    (nullish (usage_input (u_usage model)) 0)
    (nullish (usage_output (u_usage model)) 0)
    (u_successful_responses model).

Definition normalize_legacy (model : LegacyModelSummary) : NormalizedModel :=
  mkNormalized (l_model_id model) (l_name model) (l_model_id model) (l_api_type model)
    (l_reasoning_effort model) (l_verbosity model)
    (l_avg_score model) (l_avg_latency_ms model)
    (nullish (costs_total (l_costs model)) (nullish (l_total_cost model) 0))
    (nullish (usage_input (l_usage model)) 0)
    (nullish (usage_output (l_usage model)) 0)
    (l_successful_responses model).

(** A JavaScript [Map] keyed by strings: entries in insertion order. *)
Definition JsMap (V : Type) : Type := list (string * V).

Definition map_has {V : Type} (m : JsMap V) (k : string) : bool :=
  existsb (fun e => String.eqb (fst e) k) m.

(** Body of the inner loop: [if (!modelsMap.has(id)) modelsMap.set(id, ...)]. *)
Definition add_model (modelsMap : JsMap NormalizedModel) (model : LegacyModelSummary)
    : JsMap NormalizedModel :=
  if map_has modelsMap (l_model_id model) then modelsMap
  else modelsMap ++ [(l_model_id model, normalize_legacy model)].

Definition add_file (d : DataDir) (modelsMap : JsMap NormalizedModel) (file : string)
    : JsMap NormalizedModel :=
  let data := legacy_file d file in
  fold_left add_model [model1 data; model2 data] modelsMap.

Definition getAllModels (d : DataDir) : list NormalizedModel :=
  if existsb (String.eqb "evaluation_results.json") (files d) then
    map normalize_unified (u_models (unified_file d))
  else
    let jsonFiles := filter (fun f => endsWith f ".json" = true /\
                                      f <> "evaluation_results.json"%string) (files d) in
    map snd (fold_left (add_file d) jsonFiles []).

End ModelsPage.

(** ** The evaluation pipeline

    The Python evaluation script is not part of the sources at hand (only its
    README, src/unnamed/part_000, is); every definition of this module is
    modelled from the spec, sections 3 to 7. *)
Module Pipeline.

Record Question := mkQuestion { id : Z; text : string; context : string }.

Inductive ApiFamily := Chat | Responses.

Record Pricing := mkPricing {
  input_price_per_million : Q; output_price_per_million : Q }.

Record ModelConfig := mkConfig {
  key : string; display_name : string; api_family : ApiFamily;
  reasoning_effort : option string; verbosity : option string;
  pricing : Pricing }.

Record ResponseRecord := mkResponse {
  response_text : option string;
  latency_ms : Q;
  input_tokens : Z;
  output_tokens : Z;
  cost : Q;
  error : option string }.

Record GradeRecord := mkGrade {
  on_topic : Z; grounded : Z; no_contradiction : Z;
  understandability : Z; overall : Z; average : Q }.

(** A cell: the ResponseRecord of one (model, question) pair and its grade. *)
Record Cell := mkCell { record : ResponseRecord; grade : option GradeRecord }.

(** What the outbound model call yields: the reply with its latency and
    token usage, or a transport or API failure with a cause. *)
Inductive ApiOutcome :=
| ApiSuccess (reply : string) (latency : Q) (in_tok out_tok : Z)
| ApiFailure (cause : string) (latency : Q).

(** Modelled from the spec: the Model Invoker (section 4.1), missing from the
    sources. Failures are returned as a record, never raised. *)
Definition invoke (api : ModelConfig -> Question -> ApiOutcome)
    (config : ModelConfig) (q : Question) : ResponseRecord :=
  match api config q with
  | ApiSuccess reply lat i o =>
      let p := pricing config in
      mkResponse (Some reply) lat i o
        (inject_Z i * input_price_per_million p / 1000000
         + inject_Z o * output_price_per_million p / 1000000)%Q
        None
  | ApiFailure cause lat => mkResponse None lat 0 0 0 (Some cause)
  end.

(** The judge's raw reply to the rubric prompt of attempt [n]: the numbers it
    produced, or [None] when not numeric at all. *)
Definition Judge := nat -> Question -> string -> option (list Z).

Definition in_range (x : Z) : bool := (1 <=? x)%Z && (x <=? 5)%Z.

(** [average] is fixed as the mean of the four dimensions other than
    [overall] (the choice left open in section 8). *)
Definition parse_grade (reply : option (list Z)) : option GradeRecord :=
  match reply with
  | Some [a; b; c; d; e] =>
      if forallb in_range [a; b; c; d; e]
      then Some (mkGrade a b c d e ((inject_Z (a + b + c + d)) / 4)%Q)
      else None
  | _ => None
  end.

(** Number of grading retries after the first attempt. *)
Definition grading_retries : nat := 2.

Fixpoint grade_attempts (judge : Judge) (q : Question) (resp : string)
    (n fuel : nat) : option GradeRecord :=
  match parse_grade (judge n q resp) with
  | Some g => Some g
  | None =>
      match fuel with
      | O => None
      | S fuel' => grade_attempts judge q resp (S n) fuel'
      end
  end.

(** Modelled from the spec: the Grader (section 4.2). *)
Definition grade_response (judge : Judge) (q : Question) (resp : string)
    : option GradeRecord :=
  grade_attempts judge q resp 0 grading_retries.

Definition grading_error_message : string := "grading failed: unparseable judge output".

(** Modelled from the spec: one cell of the Orchestrator (section 4.3). A
    terminal grading failure sets [error] and keeps the response, its
    latency, tokens and cost. *)
Definition eval_cell (api : ModelConfig -> Question -> ApiOutcome) (judge : Judge)
    (config : ModelConfig) (q : Question) : Cell :=
  let r := invoke api config q in
  match error r, response_text r with
  | None, Some reply =>
      match grade_response judge q reply with
      | Some g => mkCell r (Some g)
      | None =>
          mkCell (mkResponse (response_text r) (latency_ms r) (input_tokens r)
                    (output_tokens r) (cost r) (Some grading_error_message)) None
      end
  | _, _ => mkCell r None
  end.

(** Error classes of section 7, read off a cell. *)
Definition invocation_error (c : Cell) : bool :=
  match response_text (record c) with None => true | Some _ => false end.
Definition has_error (c : Cell) : bool :=
  match error (record c) with Some _ => true | None => false end.
Definition grading_error (c : Cell) : bool :=
  negb (invocation_error c) && has_error c.

(** The five graded dimensions, and the per-dimension values of a summary
    (its [scores] object, section 6). *)
Inductive Dimension := OnTopic | Grounded | NoContradiction | Understandability | Overall.

Definition grade_dim (dm : Dimension) (g : GradeRecord) : Z :=
  match dm with
  | OnTopic => on_topic g | Grounded => grounded g | NoContradiction => no_contradiction g
  | Understandability => understandability g | Overall => overall g
  end.

Record Scores := mkScores {
  s_on_topic : Q; s_grounded : Q; s_no_contradiction : Q;
  s_understandability : Q; s_overall : Q }.

Definition score_of (dm : Dimension) (s : Scores) : Q :=
  match dm with
  | OnTopic => s_on_topic s | Grounded => s_grounded s | NoContradiction => s_no_contradiction s
  | Understandability => s_understandability s | Overall => s_overall s
  end.

Definition scores0 : Scores := mkScores 0 0 0 0 0.

Definition scores_add (s : Scores) (g : GradeRecord) : Scores :=
  mkScores (s_on_topic s + inject_Z (on_topic g)) (s_grounded s + inject_Z (grounded g))
    (s_no_contradiction s + inject_Z (no_contradiction g))
    (s_understandability s + inject_Z (understandability g))
    (s_overall s + inject_Z (overall g)).

Record ModelSummary := mkSummary {
  successful_count : nat;
  error_count : nat;
  total_count : nat;
  avg_score : Q;
  scores : Scores;
  avg_latency_ms : Q;
  p95_latency_ms : Q;
  total_cost : Q;
  total_input_tokens : Z;
  total_output_tokens : Z }.

(** Running sums of the aggregation fold, and the latencies seen. *)
Record Acc := mkAcc {
  n_ok : nat; n_err : nat; n_all : nat;
  score_sum : Q; dim_sum : Scores; n_timed : nat; latency_sum : Q; latencies : list Q;
  cost_sum : Q; in_sum : Z; out_sum : Z }.

Definition acc0 : Acc := mkAcc 0 0 0 0 scores0 0 0 [] 0 0 0.

Definition acc_step (a : Acc) (c : Cell) : Acc :=
  let r := record c in
  let '(ok, err, sc, ds) :=
    match error r, grade c with
    | None, Some g => (S (n_ok a), n_err a, score_sum a + average g, scores_add (dim_sum a) g)%Q
    | None, None => (S (n_ok a), n_err a, score_sum a, dim_sum a)
    | Some _, _ => (n_ok a, S (n_err a), score_sum a, dim_sum a)
    end in
  let '(timed, lat, lats) :=
    if invocation_error c then (n_timed a, latency_sum a, latencies a)
    else (S (n_timed a), latency_sum a + latency_ms r, latencies a ++ [latency_ms r])%Q in
  mkAcc ok err (S (n_all a)) sc ds timed lat lats
    (cost_sum a + cost r)%Q (in_sum a + input_tokens r)%Z (out_sum a + output_tokens r)%Z.

Definition mean (s : Q) (n : nat) : Q :=
  match n with O => 0 | _ => (s / inject_Z (Z.of_nat n))%Q end.

Definition scores_mean (s : Scores) (n : nat) : Scores :=
  mkScores (mean (s_on_topic s) n) (mean (s_grounded s) n) (mean (s_no_contradiction s) n)
    (mean (s_understandability s) n) (mean (s_overall s) n).

(** Ascending sort of the latencies. *)
Fixpoint insert_le (x : Q) (l : list Q) : list Q :=
  match l with
  | [] => [x]
  | y :: l' => if Qle_bool x y then x :: l else y :: insert_le x l'
  end.

Definition sort_Q (l : list Q) : list Q := fold_right insert_le [] l.

(** The [p]-th percentile by the nearest-rank method (the spec fixes no
    formula): the value of rank ceil(p/100 * n) in ascending order, 0 for
    no values. *)
Definition percentile (p : nat) (l : list Q) : Q :=
  match l with
  | [] => 0%Q
  | _ => nth ((p * length l + 99) / 100 - 1) (sort_Q l) 0%Q
  end.

(** Modelled from the spec: ModelSummary as a pure fold over the model's
    cells (section 3 invariant, section 4.3 denominators, section 7). *)
Definition summarize (cells : list Cell) : ModelSummary :=
  let a := fold_left acc_step cells acc0 in
  mkSummary (n_ok a) (n_err a) (n_all a)
    (mean (score_sum a) (n_ok a)) (scores_mean (dim_sum a) (n_ok a))
    (mean (latency_sum a) (n_timed a)) (percentile 95 (latencies a))
    (cost_sum a) (in_sum a) (out_sum a).

Record EvaluationRun := mkRun {
  generated_at : string;
  questions : list Question;
  model_keys : list string;
  models : gmap string ModelSummary;
  per_question_responses : gmap Z (gmap string Cell) }.

(** Results indexed by (model key, question id), filled in completion order. *)
Abbreviation Results := (gmap (string * Z) Cell).

Definition all_cells (configs : list ModelConfig) (qs : list Question)
    : list (ModelConfig * Question) :=
  list_prod configs qs.

Definition record_cell (api : ModelConfig -> Question -> ApiOutcome) (judge : Judge)
    (res : Results) (x : ModelConfig * Question) : Results :=
  <[(key x.1, id x.2) := eval_cell api judge x.1 x.2]> res.

Definition collect (api : ModelConfig -> Question -> ApiOutcome) (judge : Judge)
    (schedule : list (ModelConfig * Question)) : Results :=
  fold_left (record_cell api judge) schedule ∅.

Definition cells_of (res : Results) (qs : list Question) (k : string) : list Cell :=
  omap (fun q => res !! (k, id q)) qs.

Definition responses_of (res : Results) (configs : list ModelConfig) (i : Z)
    : gmap string Cell :=
  list_to_map (omap (fun c => (fun cell => (key c, cell)) <$> res !! (key c, i)) configs).

(** Modelled from the spec: the Orchestrator's [run] (section 4.3), with the
    concurrent cells completing in the order [schedule]. *)
Definition run (api : ModelConfig -> Question -> ApiOutcome) (judge : Judge)
    (now : string) (configs : list ModelConfig) (qs : list Question)
    (schedule : list (ModelConfig * Question)) : EvaluationRun :=
  let res := collect api judge schedule in
  mkRun now qs (map key configs)
    (list_to_map (map (fun c => (key c, summarize (cells_of res qs (key c)))) configs))
    (list_to_map (map (fun q => (id q, responses_of res configs (id q))) qs)).

End Pipeline.

(** ** The pipeline's calls as they raise

    The outbound model and judge calls raise on transport or API failure;
    the Model Invoker and the Grader catch what they raise. Modelled from the
    spec, sections 4.1, 4.2, 4.3 and 7. *)
Module PipelineExc.
Import Pipeline.

Inductive Exn :=
| Timeout
| ApiError (status : Z) (message : string)
| MalformedPayload
| SetupFailure (message : string)
| WriteFailure (message : string).

(** A Python computation: a value, or a raised exception. *)
Inductive exc (A : Type) : Type :=
| Done (a : A)
| Raised (e : Exn).
Arguments Done {A} a.
Arguments Raised {A} e.

Global Instance exc_ret : MRet exc := fun A a => Done a.
Global Instance exc_bind : MBind exc :=
  fun A B f m => match m with Done a => f a | Raised e => Raised e end.

(** [try: body except Exception as e: handler(e)]. *)
Definition try_except {A : Type} (body : exc A) (handler : Exn -> exc A) : exc A :=
  match body with Done a => Done a | Raised e => handler e end.

(** The human-readable cause recorded for an exception. *)
Definition describe (e : Exn) : string :=
  match e with
  | Timeout => "request timed out"
  | ApiError _ m => m
  | MalformedPayload => "malformed response payload"
  | SetupFailure m => m
  | WriteFailure m => m
  end.

Record Reply := mkReply { reply_text : string; reply_in : Z; reply_out : Z }.

(** The outbound model call, with the wall-clock time from dispatch until it
    returned or raised. *)
Definition Transport : Type := ModelConfig -> Question -> Q * exc Reply.

(** The judge call of attempt [n]: the numbers of its reply ([None] when not
    numeric at all), or an exception. *)
Definition JudgeCall : Type := nat -> Question -> string -> exc (option (list Z)).

(** The Model Invoker (section 4.1): the call in a try block; the handler
    returns the failure record. *)
Definition invoke_call (t : Transport) (config : ModelConfig) (q : Question)
    : exc ResponseRecord :=
  let '(lat, call) := t config q in
  try_except
    (rep ← call;
     let p := pricing config in
     mret (mkResponse (Some (reply_text rep)) lat (reply_in rep) (reply_out rep)
             (inject_Z (reply_in rep) * input_price_per_million p / 1000000
              + inject_Z (reply_out rep) * output_price_per_million p / 1000000)%Q
             None))
    (fun e => mret (mkResponse None lat 0 0 0%Q (Some (describe e)))).

(** One grading attempt (section 4.2): a judge call that raises counts as
    a failed attempt. *)
Definition judge_attempt (jc : JudgeCall) (n : nat) (q : Question) (resp : string)
    : exc (option GradeRecord) :=
  try_except (reply ← jc n q resp; mret (parse_grade reply)) (fun _ => mret None).

Fixpoint grade_attempts_call (jc : JudgeCall) (q : Question) (resp : string)
    (n fuel : nat) : exc (option GradeRecord) :=
  g ← judge_attempt jc n q resp;
  match g with
  | Some g => mret (Some g)
  | None =>
      match fuel with
      | O => mret None
      | S fuel' => grade_attempts_call jc q resp (S n) fuel'
      end
  end.

Definition grade_call (jc : JudgeCall) (q : Question) (resp : string)
    : exc (option GradeRecord) :=
  grade_attempts_call jc q resp 0 grading_retries.

(** One cell of the Orchestrator. *)
Definition eval_cell_call (t : Transport) (jc : JudgeCall) (config : ModelConfig)
    (q : Question) : exc Cell :=
  r ← invoke_call t config q;
  match error r, response_text r with
  | None, Some reply =>
      g ← grade_call jc q reply;
      match g with
      | Some g => mret (mkCell r (Some g))
      | None =>
          mret (mkCell (mkResponse (response_text r) (latency_ms r) (input_tokens r)
                          (output_tokens r) (cost r) (Some grading_error_message)) None)
      end
  | _, _ => mret (mkCell r None)
  end.

Fixpoint fold_exc {A B : Type} (f : B -> A -> exc B) (l : list A) (b : B) : exc B :=
  match l with
  | [] => mret b
  | x :: l' => b' ← f b x; fold_exc f l' b'
  end.

Definition record_cell_call (t : Transport) (jc : JudgeCall) (res : Results)
    (x : ModelConfig * Question) : exc Results :=
  cell ← eval_cell_call t jc x.1 x.2;
  mret (<[(key x.1, id x.2) := cell]> res).

(** The Orchestrator's [run]: an exception of a cell would end it. *)
Definition run_call (t : Transport) (jc : JudgeCall) (now : string)
    (configs : list ModelConfig) (qs : list Question)
    (schedule : list (ModelConfig * Question)) : exc EvaluationRun :=
  res ← fold_exc (record_cell_call t jc) schedule ∅;
  mret (mkRun now qs (map key configs)
          (list_to_map (map (fun c => (key c, summarize (cells_of res qs (key c)))) configs))
          (list_to_map (map (fun q => (id q, responses_of res configs (id q))) qs))).

(** What a call comes to once caught: the outcome given to [invoke], and the
    judge's reply given to [grade_response]. *)
Definition api_of (t : Transport) (config : ModelConfig) (q : Question) : ApiOutcome :=
  let '(lat, call) := t config q in
  match call with
  | Done rep => ApiSuccess (reply_text rep) lat (reply_in rep) (reply_out rep)
  | Raised e => ApiFailure (describe e) lat
  end.

Definition judge_of (jc : JudgeCall) : Judge :=
  fun n q resp => match jc n q resp with Done r => r | Raised _ => None end.

End PipelineExc.

(** ** Process boundary and Report Writer *)
Module Report.
Import Pipeline PipelineExc.

(** JSON values as written and parsed by [json.dump] / [json.load]. *)
Inductive json :=
| JNull
| JBool (b : bool)
| JNum (q : Q)
| JStr (s : string)
| JArr (items : list json)
| JObj (fields : list (string * json)).

Definition json_opt_str (s : option string) : json :=
  match s with Some s => JStr s | None => JNull end.

Definition json_Z (z : Z) : json := JNum (inject_Z z).

Definition grade_json (g : option GradeRecord) : json :=
  match g with
  | None => JNull
  | Some g =>
      JObj [("on_topic", json_Z (on_topic g)); ("grounded", json_Z (grounded g));
            ("no_contradiction", json_Z (no_contradiction g));
            ("understandability", json_Z (understandability g));
            ("overall", json_Z (overall g)); ("average", JNum (average g))]
  end.

Definition cell_json (c : Cell) : json :=
  let r := record c in
  JObj [("response", json_opt_str (response_text r));
        ("latency_ms", JNum (latency_ms r));
        ("input_tokens", json_Z (input_tokens r));
        ("output_tokens", json_Z (output_tokens r));
        ("cost", JNum (cost r));
        ("grade", grade_json (grade c));
        ("error", json_opt_str (error r))].

Definition summary_json (s : ModelSummary) : json :=
  JObj [("successful_responses", json_Z (Z.of_nat (successful_count s)));
        ("total_responses", json_Z (Z.of_nat (total_count s)));
        ("avg_score", JNum (avg_score s));
        ("scores", JObj [("on_topic", JNum (s_on_topic (scores s)));
                         ("grounded", JNum (s_grounded (scores s)));
                         ("no_contradiction", JNum (s_no_contradiction (scores s)));
                         ("understandability", JNum (s_understandability (scores s)));
                         ("overall", JNum (s_overall (scores s)))]);
        ("avg_latency_ms", JNum (avg_latency_ms s));
        ("p95_latency_ms", JNum (p95_latency_ms s));
        ("usage", JObj [("total_input_tokens", json_Z (total_input_tokens s));
                        ("total_output_tokens", json_Z (total_output_tokens s))]);
        ("costs", JObj [("total_cost", JNum (total_cost s))])].

Definition question_json (pq : gmap Z (gmap string Cell)) (q : Question) : json :=
  let resp := default ∅ (pq !! id q) in
  JObj [("id", json_Z (id q)); ("question", JStr (text q)); ("context", JStr (context q));
        ("responses", JObj (map (fun kc => (kc.1, cell_json kc.2)) (map_to_list resp)))].

(** Modelled from the spec: the Report Writer's document (section 6). *)
Definition write_run (r : EvaluationRun) : json :=
  JObj [("metadata",
          JObj [("generated_at", JStr (generated_at r));
                ("num_questions", json_Z (Z.of_nat (length (questions r))));
                ("num_models", json_Z (Z.of_nat (length (model_keys r))));
                ("model_keys", JArr (map JStr (model_keys r)))]);
        ("models", JObj (map (fun ks => (ks.1, summary_json ks.2)) (map_to_list (models r))));
        ("questions", JArr (map (question_json (per_question_responses r)) (questions r)))].

(** Reading back. A JSON object read as a dict: a later duplicate key
    overrides an earlier one. *)
Definition field (fs : list (string * json)) (k : string) : option json :=
  (list_to_map (rev fs) : gmap string json) !! k.

Definition get (j : json) (k : string) : option json :=
  match j with JObj fs => field fs k | _ => None end.

Definition read_Z (j : json) : option Z :=
  match j with
  | JNum q => if (Zpos (Qden q) =? 1)%Z then Some (Qnum q) else None
  | _ => None
  end.

Definition read_Q (j : json) : option Q :=
  match j with JNum q => Some q | _ => None end.

Definition read_opt_str (j : json) : option (option string) :=
  match j with JNull => Some None | JStr s => Some (Some s) | _ => None end.

Definition read_grade (j : json) : option (option GradeRecord) :=
  match j with
  | JNull => Some None
  | JObj _ =>
      a ← get j "on_topic" ≫= read_Z;
      b ← get j "grounded" ≫= read_Z;
      c ← get j "no_contradiction" ≫= read_Z;
      d ← get j "understandability" ≫= read_Z;
      e ← get j "overall" ≫= read_Z;
      avg ← get j "average" ≫= read_Q;
      Some (Some (mkGrade a b c d e avg))
  | _ => None
  end.

Definition read_cell (j : json) : option Cell :=
  txt ← get j "response" ≫= read_opt_str;
  lat ← get j "latency_ms" ≫= read_Q;
  i ← get j "input_tokens" ≫= read_Z;
  o ← get j "output_tokens" ≫= read_Z;
  c ← get j "cost" ≫= read_Q;
  g ← get j "grade" ≫= read_grade;
  err ← get j "error" ≫= read_opt_str;
  Some (mkCell (mkResponse txt lat i o c err) g).

Fixpoint mapM_opt {A B : Type} (f : A -> option B) (l : list A) : option (list B) :=
  match l with
  | [] => Some []
  | x :: l' => y ← f x; ys ← mapM_opt f l'; Some (y :: ys)
  end.

Definition read_responses (j : json) : option (gmap string Cell) :=
  match j with
  | JObj fs =>
      kcs ← mapM_opt (fun kv => c ← read_cell kv.2; Some (kv.1, c)) fs;
      Some (list_to_map (rev kcs))
  | _ => None
  end.

Definition read_question (j : json) : option (Z * gmap string Cell) :=
  i ← get j "id" ≫= read_Z;
  resp ← get j "responses" ≫= read_responses;
  Some (i, resp).

(** The (question id, model key) -> record mapping of a written document. *)
Definition read_cells (doc : json) : option (gmap Z (gmap string Cell)) :=
  match get doc "questions" with
  | Some (JArr qs) =>
      entries ← mapM_opt read_question qs;
      Some (list_to_map (rev entries))
  | _ => None
  end.

Definition lookup_cell (pq : gmap Z (gmap string Cell)) (k : string) (i : Z) : option Cell :=
  pq !! i ≫= fun resp => resp !! k.

(** Setup read at process start (section 7). *)
Record Setup := mkSetup {
  credential : option string;
  input_rows : option (list Question);   (** [None]: input file unreadable *)
  configs_valid : bool }.

(** Setup checks (section 7): they raise before any call. *)
Definition load_setup (setup : Setup) : exc (list Question) :=
  match credential setup, input_rows setup with
  | None, _ => Raised (SetupFailure "missing API credential")
  | _, None => Raised (SetupFailure "unreadable input file")
  | Some _, Some qs =>
      if negb (configs_valid setup) then Raised (SetupFailure "invalid model configuration")
      else mret qs
  end.

(** The single write of the document (section 4.4). *)
Definition write_output (writable : bool) (doc : json) : exc unit :=
  if writable then mret tt else Raised (WriteFailure "output not writable").

(** Modelled from the spec: the script's main (sections 4.4, 6 and 7).
    [schedule] is the completion order of the cells, [writable] whether the
    output destination accepts the write. *)
Definition main (setup : Setup) (t : Transport) (jc : JudgeCall) (now : string)
    (configs : list ModelConfig)
    (schedule : list Question -> list (ModelConfig * Question)) (writable : bool) : exc json :=
  qs ← load_setup setup;
  r ← run_call t jc now configs qs (schedule qs);
  let doc := write_run r in
  _ ← write_output writable doc;
  mret doc.

(** The process boundary: the exit status of what [main] did. *)
Inductive Exit :=
| ExitOk (out : json)
| SetupError (msg : string)
| WriteError (msg : string)
| Crash (msg : string).

Definition process (m : exc json) : Exit :=
  match m with
  | Done doc => ExitOk doc
  | Raised (SetupFailure msg) => SetupError msg
  | Raised (WriteFailure msg) => WriteError msg
  | Raised e => Crash (describe e)
  end.

End Report.

(** ** Concrete documents used by the examples below *)
Module Fixtures.
Import Dashboard.

Definition grade_a : ResponseGrade := mkGrade 5 5 4 4 5 (9 # 2).
Definition grade_b : ResponseGrade := mkGrade 4 4 4 4 4 4.

Definition resp_a : QuestionResponse :=
  mkResponse (Some "Answer A") 1200 100 50 (1 # 10000) (Some grade_a) None.
Definition resp_b : QuestionResponse :=
  mkResponse (Some "Answer B") 800 100 40 (1 # 20000) (Some grade_b) None.

(** A response whose grading failed: [error] set, [grade] null. *)
Definition resp_grading_failed : QuestionResponse :=
  mkResponse (Some "Answer B") 800 100 40 (1 # 20000) None
    (Some "grading failed: unparseable judge output").

Definition summary_a : ModelSummary := mkSummary "Model A" (9 # 2) 1200 (mkCosts (1 # 10000)).
Definition summary_b : ModelSummary := mkSummary "Model B" 4 800 (mkCosts (1 # 20000)).

Definition models_ab : gmap string ModelSummary :=
  {[ "a" := summary_a; "b" := summary_b ]}.

Definition data_of (qs : list Question) : EvaluationData :=
  mkData (mkMetadata (Z.of_nat (length qs)) 2 ["a"; "b"]) models_ab qs.

(** Both models answered and were graded. *)
Definition data_full : EvaluationData :=
  data_of [mkQuestion 1 "Q1" "" {[ "a" := resp_a; "b" := resp_b ]};
           mkQuestion 2 "Q2" "" {[ "a" := resp_b; "b" := resp_b ]}].

(** The second question has no response for model "b". *)
Definition data_one_sided : EvaluationData :=
  data_of [mkQuestion 1 "Q1" "" {[ "a" := resp_a; "b" := resp_b ]};
           mkQuestion 2 "Q2" "" {[ "a" := resp_a ]}].

(** Model "b"'s response to the only question failed grading. *)
Definition data_grading_failed : EvaluationData :=
  data_of [mkQuestion 1 "Q1" "" {[ "a" := resp_a; "b" := resp_grading_failed ]}].

End Fixtures.

Module ModelsFixtures.
Import ModelsPage.

Definition legacy_summary (nm mid : string) (score : Q) (cst : option Q) (u : option Usage)
    : LegacyModelSummary :=
  mkLegacy nm mid "chat" None None cst 900 score 10 u None.

Definition gpt4o : LegacyModelSummary :=
  legacy_summary "GPT-4o-mini" "gpt-4o-mini" 4 (Some (3 # 1000)) (Some (mkUsage 1000 400)).
Definition gpt5 : LegacyModelSummary :=
  legacy_summary "GPT-5-mini" "gpt-5-mini" (9 # 2) None None.
(** The same model id again, as found in a second comparison file. *)
Definition gpt5_again : LegacyModelSummary :=
  legacy_summary "GPT-5-mini (rerun)" "gpt-5-mini" 3 (Some (1 # 100)) None.
Definition gpt5nano : LegacyModelSummary :=
  legacy_summary "GPT-5-nano" "gpt-5-nano" (7 # 2) None None.

Definition legacy_files (f : string) : LegacyComparisonData :=
  if String.eqb f "comparison_1.json" then mkLegacyData gpt4o gpt5
  else mkLegacyData gpt5_again gpt5nano.

Definition unified_doc : UnifiedEvaluationData :=
  mkUnifiedData
    [("gpt-4o-mini", mkUnified "GPT-4o-mini" "gpt-4o-mini" "chat" None None 5 4 900 None
                       (Some (mkCosts (3 # 1000))));
     ("gpt-5-mini-low", mkUnified "GPT-5-mini (low)" "gpt-5-mini" "responses" (Some "low")
                          (Some "low") 5 (9 # 2) 2100 (Some (mkUsage 1000 800)) None)].

Definition dir_legacy : DataDir :=
  mkDir ["comparison_1.json"; "comparison_2.json"; "README.md"] unified_doc legacy_files.

Definition dir_unified : DataDir :=
  mkDir ["comparison_1.json"; "evaluation_results.json"] unified_doc legacy_files.

End ModelsFixtures.

Module PipelineFixtures.
Import Pipeline.

Definition cfg_4o : ModelConfig :=
  mkConfig "gpt-4o-mini" "GPT-4o-mini" Chat None None (mkPricing (3 # 20) (3 # 5)).
Definition cfg_5 : ModelConfig :=
  mkConfig "gpt-5-mini-low" "GPT-5-mini (low)" Responses (Some "low") (Some "low")
    (mkPricing (1 # 4) 2).
Definition configs_fixture : list ModelConfig := [cfg_4o; cfg_5].

Definition questions_fixture : list Question :=
  [mkQuestion 1 "What does the plan cover?" "Plan A covers dental.";
   mkQuestion 2 "Is there a deductible?" "";
   mkQuestion 3 "How do I file a claim?" "Claims are filed online."].

(** The second model times out on question 2; every other call answers. *)
Definition api_fixture (c : ModelConfig) (q : Question) : ApiOutcome :=
  if (id q =? 2)%Z && String.eqb (key c) "gpt-5-mini-low" then ApiFailure "timeout" 30000
  else ApiSuccess "answer" 900 1000 500.

(** The judge's replies to question 3 never parse. *)
Definition judge_fixture : Judge :=
  fun _ q _ => if (id q =? 3)%Z then Some [7; 7]%Z else Some [5; 4; 5; 4; 5]%Z.

Definition schedule_fixture : list (ModelConfig * Question) :=
  rev (all_cells configs_fixture questions_fixture).

Definition fixture_now : string := "2025-01-01T00:00:00".

(** Every call of this back end fails. *)
Definition api_down (_ : ModelConfig) (_ : Question) : ApiOutcome := ApiFailure "down" 0.

Definition run_fixture : EvaluationRun :=
  run api_fixture judge_fixture fixture_now configs_fixture questions_fixture
    schedule_fixture.

(** The second model's call on question 2 raises a timeout; every other call
    answers. *)
Definition transport_fixture : PipelineExc.Transport :=
  fun c q =>
    if (id q =? 2)%Z && String.eqb (key c) "gpt-5-mini-low"
    then (30000%Q, PipelineExc.Raised PipelineExc.Timeout)
    else (900%Q, PipelineExc.Done (PipelineExc.mkReply "answer" 1000 500)).

(** The judge's first reply on question 1 is malformed and raises; every
    other reply is a valid grade. *)
Definition judge_call_fixture : PipelineExc.JudgeCall :=
  fun n q _ =>
    if (id q =? 1)%Z && Nat.eqb n 0 then PipelineExc.Raised PipelineExc.MalformedPayload
    else PipelineExc.Done (Some [5; 4; 5; 4; 5]%Z).

Definition setup_fixture : Report.Setup :=
  Report.mkSetup (Some "sk-test") (Some questions_fixture) true.

End PipelineFixtures.

(** ** More of src/app/compare/page.tsx *)
Module CompareView.
Import Dashboard.

(** The page state of [ComparePage] touched by [loadData]. *)
Record PageState := mkState {
  st_data : option EvaluationData;
  st_loading : bool;
  st_error : option string;
  st_modelAKey : string;
  st_modelBKey : string }.

Definition initial_state : PageState := mkState None true None "" "".

(** What [fetch("/data/evaluation_results.json")] and [res.json()] give:
    a rejection (with the message of the [Error], or [None] for a thrown
    non-Error), a response that is not ok, or the parsed document. *)
Inductive FetchOutcome :=
| Rejected (message : option string)
| NotOk
| Body (json : EvaluationData).

(** [loadData]: its try, catch and finally blocks. *)
Definition loadData (r : FetchOutcome) (s : PageState) : PageState :=
  let s' :=
    match r with
    | Rejected m =>
        mkState (st_data s) (st_loading s) (Some (default "Unknown error" m))
          (st_modelAKey s) (st_modelBKey s)
    | NotOk =>
        mkState (st_data s) (st_loading s) (Some "Failed to load evaluation data")
          (st_modelAKey s) (st_modelBKey s)
    | Body json =>
        let keys := model_keys (metadata json) in
        match keys with
        | k0 :: k1 :: _ => mkState (Some json) (st_loading s) (st_error s) k0 k1
        | _ => mkState (Some json) (st_loading s) (st_error s) (st_modelAKey s) (st_modelBKey s)
        end
    end in
  mkState (st_data s') false (st_error s') (st_modelAKey s') (st_modelBKey s').

(** The [comparison] memo as rendered from the page state. *)
Definition page_comparison (s : PageState) : js (option Comparison) :=
  comparison (st_data s) (st_modelAKey s) (st_modelBKey s).

(** The labels under the three difference stats. *)
Definition score_label (c : Comparison) : string :=
  if Qgtb (scoreDiff c) 0 then "Model A higher"
  else if Qgtb 0 (scoreDiff c) then "Model B higher" else "Equal".

Definition latency_label (c : Comparison) : string :=
  if Qgtb 0 (latencyDiff c) then "Model A faster"
  else if Qgtb (latencyDiff c) 0 then "Model B faster" else "Equal".

Definition cost_label (c : Comparison) : string :=
  if Qgtb 0 (costDiff c) then "Model A cheaper"
  else if Qgtb (costDiff c) 0 then "Model B cheaper" else "Equal".

(** [winner] of a row of the question-by-question comparison. *)
Definition row_winner (respA respB : QuestionResponse) : js string :=
  a ← read_average (grade respA);
  b ← read_average (grade respB);
  if Qgtb a b then mret "A"
  else
    b' ← read_average (grade respB);
    a' ← read_average (grade respA);
    if Qgtb b' a' then mret "B" else mret "tie".

(** The badge of a row: the winner and the difference it shows, as
    formatted by [toFixed(1)]. *)
Inductive Badge :=
| BadgeA (shown : bool * Z)
| BadgeB (shown : bool * Z)
| BadgeTie.

Definition row_badge (respA respB : QuestionResponse) (winner : string) : js Badge :=
  if String.eqb winner "A" then
    a ← read_average (grade respA); b ← read_average (grade respB); mret (BadgeA (toFixed 1 (a - b)%Q))
  else if String.eqb winner "B" then
    b ← read_average (grade respB); a ← read_average (grade respA); mret (BadgeB (toFixed 1 (b - a)%Q))
  else mret BadgeTie.

(** One row of [data.questions.map(...)]: [null] when a response is missing. *)
Definition question_row (modelAKey modelBKey : string) (q : Question)
    : js (option (Z * string * Badge)) :=
  match responses q !! modelAKey, responses q !! modelBKey with
  | Some respA, Some respB =>
      w ← row_winner respA respB;
      b ← row_badge respA respB w;
      mret (Some (id q, w, b))
  | _, _ => mret None
  end.

Definition question_rows (d : EvaluationData) (modelAKey modelBKey : string)
    : js (list (option (Z * string * Badge))) :=
  map_js (question_row modelAKey modelBKey) (questions d).

(** The number of rows whose winner is [w]. *)
Definition count_winner (w : string) (rs : list (option (Z * string * Badge))) : nat :=
  length (List.filter (fun r => match r with Some (_, w', _) => String.eqb w' w | None => false end) rs).

(** A row's badge agrees with its winner and shows its difference without
    a minus sign. *)
Definition badge_ok (r : option (Z * string * Badge)) : Prop :=
  match r with
  | Some (_, w, BadgeA (neg, n)) => w = "A" /\ neg = false /\ (0 <= n)%Z
  | Some (_, w, BadgeB (neg, n)) => w = "B" /\ neg = false /\ (0 <= n)%Z
  | Some (_, w, BadgeTie) => w = "tie"
  | None => True
  end.

End CompareView.

(** ** More of src/app/details/page.tsx *)
Module DetailsView.
Import Dashboard.

(** [key ? data.models[key] : null]: the empty string is falsy. *)
Definition model_of (d : EvaluationData) (k : option string) : option ModelSummary :=
  match k with
  | Some s => if String.eqb s "" then None else models d !! s
  | None => None
  end.

(** [DetailsPage] on the result of [getEvaluationData] ([None] is its
    [null]: the file missing or not JSON): the header title, and the
    question cards or [None] for the "No comparison data" panel. *)
Definition details_page (data : option EvaluationData)
    : js (string * option (list (option (list Q * list Q * Winner)))) :=
  match data with
  | None => mret ("Detailed Results", None)
  | Some d =>
      let modelKeys := take 2 (model_keys (metadata d)) in
      let model1Key := head modelKeys in
      let model2Key := nth_error modelKeys 1 in
      match model_of d model1Key, model_of d model2Key, model1Key, model2Key with
      | Some model1, Some model2, Some k1, Some k2 =>
          cards ← details_cards d k1 k2;
          mret (name model1 +:+ " vs " +:+ name model2, Some cards)
      | _, _, _, _ => mret ("Detailed Results", None)
      end
  end.

(** The compare page's name of a winner of the details page. *)
Definition winner_name (w : Winner) : string :=
  match w with Model1Higher => "A" | Model2Higher => "B" | Tie => "tie" end.

(** The number of question cards whose winner indicator is [w]. *)
Definition count_cards (w : Winner) (cs : list (option (list Q * list Q * Winner))) : nat :=
  length (List.filter (fun c => match c with
                                | Some (_, _, w') => String.eqb (winner_name w') (winner_name w)
                                | None => false end) cs).

End DetailsView.

(** ** More of src/unnamed/part_001: the leaderboard of [ModelsPage] *)
Module Leaderboard.
Import ModelsPage.

(** Insertion of [x] after the elements it does not sort before. *)
Fixpoint insert_by {A : Type} (cmp : A -> A -> Q) (x : A) (l : list A) : list A :=
  match l with
  | [] => [x]
  | y :: l' => if Qgtb 0 (cmp x y) then x :: l else y :: insert_by cmp x l'
  end.

(** [[...xs].sort(cmp)]: [Array.prototype.sort] is stable, so for a
    consistent comparator its result is the one of this stable insertion
    sort. *)
Definition array_sort {A : Type} (cmp : A -> A -> Q) (l : list A) : list A :=
  fold_left (fun acc x => insert_by cmp x acc) l [].

Definition by_score (a b : NormalizedModel) : Q := (avg_score b - avg_score a)%Q.

Definition costEfficiency (m : NormalizedModel) : Q :=
  if Qgtb (n_total_cost m) 0 then (avg_score m / n_total_cost m * 1000)%Q else 0%Q.

(** A JavaScript number that may be infinite. *)
Inductive ExtQ := NegInf | PosInf | Fin (q : Q).

(** [Math.max(...xs)] and [Math.min(...xs)]: from -Infinity (+Infinity),
    keep each argument that is larger (smaller) than the current value. *)
Definition max_step (acc : ExtQ) (x : Q) : ExtQ :=
  match acc with
  | Fin a => if Qgtb x a then Fin x else acc
  | NegInf => Fin x
  | PosInf => PosInf
  end.

Definition min_step (acc : ExtQ) (x : Q) : ExtQ :=
  match acc with
  | Fin a => if Qgtb a x then Fin x else acc
  | PosInf => Fin x
  | NegInf => NegInf
  end.

Definition math_max (l : list Q) : ExtQ := fold_left max_step l NegInf.

Definition math_min (l : list Q) : ExtQ := fold_left min_step l PosInf.

Record Row := mkRow { row_model : NormalizedModel; row_efficiency : Q }.

Inductive PageView :=
| NoModelData
| Board (total_models : nat) (highest : ExtQ) (fastest : ExtQ) (lowest_cost : ExtQ)
        (rows : list Row).

(** [ModelsPage]: the stats row and the rows of the leaderboard table. *)
Definition models_page (d : DataDir) : PageView :=
  let models := getAllModels d in
  let sortedModels := array_sort by_score models in
  let modelsWithEfficiency := map (fun m => mkRow m (costEfficiency m)) sortedModels in
  if (length models =? 0)%nat then NoModelData
  else Board (length models) (math_max (map avg_score models))
         (math_min (map avg_latency_ms models)) (math_min (map n_total_cost models))
         modelsWithEfficiency.

Definition getScoreColor (score : Q) : string :=
  if negb (Qgtb (9 # 2) score) then "text-[#4CAF79]"
  else if negb (Qgtb 4 score) then "text-[#5E6AD2]"
  else if negb (Qgtb (7 # 2) score) then "text-[#E5A913]"
  else "text-[#E5484D]".

Definition getScoreBg (score : Q) : string :=
  if negb (Qgtb (9 # 2) score) then "bg-[#4CAF79]/15"
  else if negb (Qgtb 4 score) then "bg-[#5E6AD2]/15"
  else if negb (Qgtb (7 # 2) score) then "bg-[#E5A913]/15"
  else "bg-[#E5484D]/15".

(** The models whose average score equals [s]. *)
Definition same_score (s : Q) (m : NormalizedModel) : bool := Qeq_bool (avg_score m) s.

(** The legend under the table: each colour with the threshold it names,
    best first ("Excellent (>=4.5)", ..., "Poor (<3.5)"). *)
Definition legend : list (string * option Q) :=
  [("#4CAF79", Some (9 # 2)); ("#5E6AD2", Some 4%Q); ("#E5A913", Some (7 # 2)); ("#E5484D", None)].

(** [m1] may be listed before [m2] in a leaderboard by score. *)
Definition score_desc (m1 m2 : NormalizedModel) : Prop := (avg_score m2 <= avg_score m1)%Q.

End Leaderboard.

(** ** Derived views used by the statements below *)
Module DashboardViews.
Import Dashboard.

(** The question carries a response for both selected model keys. *)
Definition both_answered (a b : string) (q : Question) : bool :=
  match responses q !! a, responses q !! b with
  | Some _, Some _ => true
  | _, _ => false
  end.

End DashboardViews.

Module ModelsViews.
Import ModelsPage.

(** The files the legacy branch reads, and the models they hold in reading
    order. *)
Definition legacy_json_files (d : DataDir) : list string :=
  filter (fun f => endsWith f ".json" = true /\ f <> "evaluation_results.json"%string) (files d).

Definition legacy_models (d : DataDir) : list LegacyModelSummary :=
  flat_map (fun f => [model1 (legacy_file d f); model2 (legacy_file d f)]) (legacy_json_files d).

Definition seen_b (seen : list string) (k : string) : bool :=
  existsb (fun k' => String.eqb k' k) seen.

(** The models whose [model_id] has not occurred earlier (nor in [seen]). *)
Fixpoint first_occurrences (seen : list string) (ms : list LegacyModelSummary)
    : list LegacyModelSummary :=
  match ms with
  | [] => []
  | m :: ms' =>
      if seen_b seen (l_model_id m) then first_occurrences seen ms'
      else m :: first_occurrences (seen ++ [l_model_id m]) ms'
  end.

End ModelsViews.

Module PipelineMeasures.
Import Pipeline.

Definition sumQ (l : list Q) : Q := fold_left Qplus l 0%Q.

(** A cell with neither an invocation error nor a grading error. *)
Definition clean (x : Cell) : bool := negb (invocation_error x) && negb (grading_error x).

Definition cell_score (x : Cell) : Q :=
  match grade x with Some g => average g | None => 0%Q end.

Definition cell_dim (dm : Dimension) (x : Cell) : Q :=
  match grade x with Some g => inject_Z (grade_dim dm g) | None => 0%Q end.

Definition cell_wf (x : Cell) : Prop :=
  (invocation_error x = true -> has_error x = true) /\
  (has_error x = false -> is_Some (grade x)).

(** The cells of one model, in question order. *)
Definition model_cells (api : ModelConfig -> Question -> ApiOutcome) (judge : Judge)
    (c : ModelConfig) (qs : list Question) : list Cell :=
  map (eval_cell api judge c) qs.

End PipelineMeasures.

(** * Properties *)

(** ** Dashboard pages *)
Module DashboardFacts.
Import Dashboard DashboardViews.

(** Unfold the [js] monad operations. *)
Ltac js_unfold := cbn [forEach_js map_js]; cbv [mret js_ret mbind js_bind read_average].

Lemma count_question_sum (a b : string) (x y z x' y' z' : nat) (q : Question) :
  count_question a b (x, y, z) q = Ok (x', y', z') ->
  (x' + y' + z' = x + y + z + if both_answered a b q then 1 else 0)%nat.
Proof.
  unfold count_question, both_answered.
  destruct (responses q !! a) as [ra|] eqn:Ha;
    destruct (responses q !! b) as [rb|] eqn:Hb; js_unfold;
    try (intros H; inversion H; subst; lia).
  destruct (grade ra) as [ga|]; destruct (grade rb) as [gb|]; js_unfold;
    try discriminate.
  destruct (Qgtb (average ga) (average gb)); js_unfold;
    [|destruct (Qgtb (average gb) (average ga)); js_unfold];
    intros H; inversion H; subst; lia.
Qed.

Lemma forEach_count_sum (a b : string) (l : list Question) (x y z x' y' z' : nat) :
  forEach_js (count_question a b) l (x, y, z) = Ok (x', y', z') ->
  (x' + y' + z' = x + y + z + length (filter (fun q => both_answered a b q = true) l))%nat.
Proof.
  revert x y z.
  induction l as [|q l IH]; intros x y z; js_unfold.
  - intros H; inversion H; subst; cbn; lia.
  - destruct (count_question a b (x, y, z) q) as [[[x1 y1] z1]|] eqn:Hq; js_unfold;
      [|intros Hc; discriminate Hc].
    intros H. apply IH in H. apply count_question_sum in Hq.
    rewrite filter_cons. destruct (both_answered a b q);
      [rewrite decide_True by done | rewrite decide_False by done]; cbn; lia.
Qed.

Lemma count_question_graded (a b : string) (acc : nat * nat * nat) (q : Question) :
  (forall r, responses q !! a = Some r \/ responses q !! b = Some r -> is_Some (grade r)) ->
  exists acc', count_question a b acc q = Ok acc'.
Proof.
  intros Hg. destruct acc as [[x y] z]. unfold count_question.
  destruct (responses q !! a) as [ra|] eqn:Ha;
    destruct (responses q !! b) as [rb|] eqn:Hb; js_unfold; eauto.
  destruct (Hg ra (or_introl eq_refl)) as [ga ->].
  destruct (Hg rb (or_intror eq_refl)) as [gb ->]. js_unfold.
  destruct (Qgtb (average ga) (average gb)); js_unfold; eauto.
  destruct (Qgtb (average gb) (average ga)); js_unfold; eauto.
Qed.

Lemma forEach_count_graded (a b : string) (l : list Question) (acc : nat * nat * nat) :
  (forall q r, q ∈ l -> responses q !! a = Some r \/ responses q !! b = Some r ->
     is_Some (grade r)) ->
  exists acc', forEach_js (count_question a b) l acc = Ok acc'.
Proof.
  revert acc. induction l as [|q l IH]; intros acc Hg; js_unfold; eauto.
  destruct (count_question_graded a b acc q) as [acc1 ->].
  { intros r Hr. apply (Hg q r); [left|]; auto. }
  js_unfold. apply IH. intros q' r Hq'. apply Hg. right. exact Hq'.
Qed.

End DashboardFacts.

Module DashboardClaims.
Import Dashboard DashboardViews DashboardFacts Fixtures.

Lemma filter_both_all (a b : string) (l : list Question) :
  (forall q, q ∈ l -> both_answered a b q = true) ->
  filter (fun q => both_answered a b q = true) l = l.
Proof.
  induction l as [|q l IH]; intros Hall; [done|].
  rewrite filter_cons, decide_True by (apply Hall; left).
  f_equal. apply IH. intros q' Hq'. apply Hall. right. exact Hq'.
Qed.

Lemma map_js_ok {A B : Type} (f : A -> js B) (l : list A) :
  (forall x, x ∈ l -> exists y, f x = Ok y) -> exists ys, map_js f l = Ok ys.
Proof.
  induction l as [|x l IH]; intros Hf; js_unfold; [eauto|].
  destruct (Hf x (list_elem_of_here x l)) as [y ->].
  destruct IH as [ys ->]; [intros x' Hx'; apply Hf; right; exact Hx'|].
  eauto.
Qed.

(** C1 (as stated, refuted): on a loaded document where one question has no
    response for the second model, the win, loss and tie counts add up to
    less than [metadata.num_questions]. *)
Lemma compare_win_tie_sum_counterexample :
  match comparison (Some data_one_sided) "a" "b" with
  | Ok (Some c) =>
      Z.of_nat (modelAWins c + modelBWins c + ties c) <> num_questions (metadata data_one_sided)
  | _ => False
  end.
Proof. vm_compute. discriminate. Qed.

(** C1 (amended): the comparison memo counts exactly the questions of
    [data.questions] that carry a response for both selected keys; when every
    question carries both responses with a grade and [metadata.num_questions]
    is the length of [questions], the three counts add up to
    [num_questions]. *)
Theorem compare_win_tie_sum_answered (d : EvaluationData) (a b : string) :
  (forall c, comparison (Some d) a b = Ok (Some c) ->
     (modelAWins c + modelBWins c + ties c
      = length (filter (fun q => both_answered a b q = true) (questions d)))%nat) /\
  (is_Some (models d !! a) -> is_Some (models d !! b) ->
   (forall q, q ∈ questions d -> exists ra rb ga gb,
      responses q !! a = Some ra /\ responses q !! b = Some rb /\
      grade ra = Some ga /\ grade rb = Some gb) ->
   Z.of_nat (length (questions d)) = num_questions (metadata d) ->
   exists c, comparison (Some d) a b = Ok (Some c) /\
     Z.of_nat (modelAWins c + modelBWins c + ties c) = num_questions (metadata d)).
Proof.
  split.
  - intros c. unfold comparison.
    destruct (models d !! a) as [ma|]; destruct (models d !! b) as [mb|]; js_unfold;
      try (intros Hc; discriminate Hc).
    destruct (forEach_js (count_question a b) (questions d) (0, 0, 0)%nat)
      as [[[aw bw] t]|] eqn:Hf; [|intros Hc; discriminate Hc].
    intros Hc. inversion Hc; subst; cbn.
    apply forEach_count_sum in Hf. lia.
  - intros [ma Ha] [mb Hb] Hall Hlen.
    assert (Hg : forall q r, q ∈ questions d ->
               responses q !! a = Some r \/ responses q !! b = Some r -> is_Some (grade r)).
    { intros q r Hq Hr. destruct (Hall q Hq) as (ra & rb & ga & gb & Ha' & Hb' & Hga & Hgb).
      destruct Hr as [Hr|Hr]; [rewrite Ha' in Hr|rewrite Hb' in Hr];
        inversion Hr; subst; eauto. }
    destruct (forEach_count_graded a b (questions d) (0, 0, 0)%nat Hg)
      as [[[aw bw] t] Hf].
    exists (mkComparison (avg_score ma - avg_score mb)
                         (avg_latency_ms ma - avg_latency_ms mb)
                         (total_cost (costs ma) - total_cost (costs mb)) aw bw t).
    unfold comparison. rewrite Ha, Hb. js_unfold. rewrite Hf. split; [reflexivity|].
    cbn. apply forEach_count_sum in Hf.
    rewrite filter_both_all in Hf.
    + rewrite <- Hlen. lia.
    + intros q Hq. destruct (Hall q Hq) as (ra & rb & ga & gb & Ha' & Hb' & _ & _).
      unfold both_answered. rewrite Ha', Hb'. reflexivity.
Qed.

Lemma compare_win_tie_sum_answered_witness :
  exists c, comparison (Some data_full) "a" "b" = Ok (Some c) /\
    Z.of_nat (modelAWins c + modelBWins c + ties c) = num_questions (metadata data_full).
Proof.
  apply (proj2 (compare_win_tie_sum_answered data_full "a" "b")).
  - vm_compute. eauto.
  - vm_compute. eauto.
  - intros q Hq. vm_compute in Hq.
    repeat (apply elem_of_cons in Hq; destruct Hq as [Hq|Hq]; [subst q; vm_compute; eauto 10|]).
    apply elem_of_nil in Hq. contradiction.
  - vm_compute. reflexivity.
Defined.

(** C5 (as stated, refuted): a response whose grading failed ([error] set,
    [grade] null) makes the details page's winner indicator, its question
    cards and the compare page's win counting throw. *)
Lemma grade_null_views_counterexample :
  winner_indicator resp_a resp_grading_failed = Throw /\
  details_cards data_grading_failed "a" "b" = Throw /\
  comparison (Some data_grading_failed) "a" "b" = Throw.
Proof. vm_compute. auto. Qed.

(** C5 (amended): when every response of the selected models carries a
    non-null grade, as the dashboard's [QuestionResponse] type declares, the
    compare page's win counting and every question card of the details page,
    winner indicator included, evaluate without throwing. *)
Theorem views_defined_when_graded (d : EvaluationData) (a b : string) :
  (forall q r, q ∈ questions d ->
     responses q !! a = Some r \/ responses q !! b = Some r -> is_Some (grade r)) ->
  (exists c, comparison (Some d) a b = Ok c) /\
  (exists cards, details_cards d a b = Ok cards).
Proof.
  intros Hg. split.
  - unfold comparison.
    destruct (models d !! a); destruct (models d !! b); js_unfold; eauto.
    destruct (forEach_count_graded a b (questions d) (0, 0, 0)%nat Hg)
      as [[[aw bw] t] ->].
    eauto.
  - apply map_js_ok. intros q Hq. unfold details_card.
    destruct (responses q !! a) as [r1|] eqn:H1;
      destruct (responses q !! b) as [r2|] eqn:H2; js_unfold; eauto.
    destruct (Hg q r1 Hq (or_introl H1)) as [g1 Hg1].
    destruct (Hg q r2 Hq (or_intror H2)) as [g2 Hg2].
    unfold grade_display, winner_indicator. rewrite Hg1, Hg2. js_unfold.
    destruct (Qgtb (average g1) (average g2)); js_unfold; eauto.
    destruct (Qgtb (average g2) (average g1)); js_unfold; eauto.
Qed.

Lemma views_defined_when_graded_witness :
  (exists c, comparison (Some data_full) "a" "b" = Ok c) /\
  (exists cards, details_cards data_full "a" "b" = Ok cards).
Proof.
  apply views_defined_when_graded.
  intros q r Hq Hr. vm_compute in Hq.
  repeat (apply elem_of_cons in Hq; destruct Hq as [Hq|Hq];
          [subst q; vm_compute in Hr; destruct Hr as [Hr|Hr]; inversion Hr; subst;
           vm_compute; eauto|]).
  apply elem_of_nil in Hq. contradiction.
Defined.

End DashboardClaims.

(** ** The comparisons API route *)
Module RouteClaims.
Import ComparisonsRoute.

(** stdpp makes [String.append] opaque to [simpl]; let it compute here. *)
#[local] Arguments String.append : simpl nomatch.

Lemma prefix_iff (p s : string) :
  String.prefix p s = true <-> exists r, s = String.append p r.
Proof.
  revert s. induction p as [|c p IH]; intros s; cbn.
  - split; [intros _; exists s; reflexivity | intros _; destruct s; reflexivity].
  - destruct s as [|c' s]; cbn.
    + split; [discriminate | intros [r Hr]; discriminate Hr].
    + destruct (ascii_dec c c') as [->|Hne].
      * rewrite IH. split; intros [r Hr]; exists r; [rewrite Hr|injection Hr]; auto.
      * split; [discriminate | intros [r Hr]; injection Hr; intros; congruence].
Qed.

Lemma substring_full (s : string) : String.substring 0 (String.length s) s = s.
Proof. induction s as [|c s IH]; cbn; [reflexivity|]. rewrite IH. reflexivity. Qed.

Lemma length_append (p s : string) :
  String.length (String.append p s) = (String.length p + String.length s)%nat.
Proof. induction p as [|c p IH]; cbn; lia. Qed.

Lemma substring_append_r (p s : string) :
  String.substring (String.length p) (String.length s) (String.append p s) = s.
Proof.
  induction p as [|c p IH]; cbn.
  - apply substring_full.
  - destruct (String.length s); exact IH.
Qed.

Lemma substring_split (s : string) (k : nat) :
  (k <= String.length s)%nat ->
  s = String.append (String.substring 0 k s) (String.substring k (String.length s - k) s).
Proof.
  revert k. induction s as [|c s IH]; intros k Hk; cbn in *.
  - destruct k; [reflexivity | lia].
  - destruct k as [|k]; cbn.
    + rewrite substring_full. reflexivity.
    + f_equal. apply IH. lia.
Qed.

Lemma endsWith_iff (s suf : string) :
  endsWith s suf = true <-> exists p, s = String.append p suf.
Proof.
  unfold endsWith. rewrite andb_true_iff, Nat.leb_le, String.eqb_eq. split.
  - intros [Hle Hsub]. exists (String.substring 0 (String.length s - String.length suf) s).
    rewrite (substring_split s (String.length s - String.length suf)) at 1 by lia.
    f_equal. replace (String.length s - (String.length s - String.length suf))%nat
      with (String.length suf) by lia.
    exact Hsub.
  - intros [p ->]. rewrite length_append. split; [lia|].
    replace (String.length p + String.length suf - String.length suf)%nat
      with (String.length p) by lia.
    apply substring_append_r.
Qed.

(** C9: the GET handler never throws; it answers the names of public/data
    that start with "comparison_" and end with ".json", in listing order,
    and the empty array when the directory is missing or a filesystem call
    fails. *)
Theorem GET_lists_comparison_files (fs : FsState) :
  exists body,
    GET fs = Ok body /\
    body = match cwd_ok fs, data_dir fs with
           | true, Listing files => filter (fun f => is_comparison_file f = true) files
           | _, _ => []
           end /\
    forall f, f ∈ body <->
      (exists files, cwd_ok fs = true /\ data_dir fs = Listing files /\ f ∈ files) /\
      (exists r, f = String.append "comparison_" r) /\
      (exists p, f = String.append p ".json").
Proof.
  destruct fs as [[|] [| |files]]; cbn; eexists; (split; [reflexivity|]);
    (split; [reflexivity|]); intros f.
  all: try (split; [intros Hf; apply elem_of_nil in Hf; contradiction
                   |intros [(fl & Hc & Hd & _) _]; first [discriminate Hc | discriminate Hd]]).
  rewrite list_elem_of_filter. unfold is_comparison_file, startsWith.
  rewrite andb_true_iff, prefix_iff, endsWith_iff. split.
  - intros [[Hs He] Hin]. split; [|split]; eauto.
  - intros [(fl & _ & Hd & Hin) [Hs He]]. injection Hd as <-. auto.
Qed.

End RouteClaims.

(** ** The models leaderboard loader *)
Module ModelsClaims.
Import ModelsPage ModelsViews.

Lemma seen_b_spec (seen : list string) (k : string) : seen_b seen k = true <-> k ∈ seen.
Proof.
  unfold seen_b. rewrite existsb_exists. split.
  - intros [k' [Hin Heq]]. apply String.eqb_eq in Heq. subst. apply list_elem_of_In. exact Hin.
  - intros Hin. exists k. split; [apply list_elem_of_In; exact Hin | apply String.eqb_refl].
Qed.

Lemma map_has_seen (m : JsMap NormalizedModel) (k : string) :
  map_has m k = seen_b (map fst m) k.
Proof.
  unfold map_has, seen_b. induction m as [|e m IH]; cbn; [reflexivity|].
  rewrite IH. reflexivity.
Qed.

Lemma fold_add_model (ms : list LegacyModelSummary) (acc : JsMap NormalizedModel) :
  fold_left add_model ms acc =
  acc ++ map (fun m => (l_model_id m, normalize_legacy m)) (first_occurrences (map fst acc) ms).
Proof.
  revert acc. induction ms as [|m ms IH]; intros acc; cbn.
  - rewrite app_nil_r. reflexivity.
  - unfold add_model at 2. rewrite map_has_seen.
    destruct (seen_b (map fst acc) (l_model_id m)); [apply IH|].
    rewrite IH, map_app. cbn. rewrite <- app_assoc. reflexivity.
Qed.

Lemma fold_add_file (d : DataDir) (fs : list string) (acc : JsMap NormalizedModel) :
  fold_left (add_file d) fs acc =
  fold_left add_model (flat_map (fun f => [model1 (legacy_file d f); model2 (legacy_file d f)]) fs) acc.
Proof.
  revert acc. induction fs as [|f fs IH]; intros acc; cbn; [reflexivity|].
  rewrite IH. reflexivity.
Qed.

Lemma first_occurrences_fresh (seen : list string) (ms : list LegacyModelSummary) :
  NoDup (map l_model_id (first_occurrences seen ms)) /\
  forall m, m ∈ first_occurrences seen ms -> l_model_id m ∉ seen.
Proof.
  revert seen. induction ms as [|m ms IH]; intros seen; cbn.
  - split; [constructor | intros m Hm; apply elem_of_nil in Hm; contradiction].
  - destruct (seen_b seen (l_model_id m)) eqn:Hs; [apply IH|].
    destruct (IH (seen ++ [l_model_id m])) as [Hnd Hfr].
    assert (Hm : l_model_id m ∉ seen).
    { intros Hin. apply seen_b_spec in Hin. congruence. }
    split.
    + cbn. constructor; [|exact Hnd].
      intros Hin. apply list_elem_of_fmap in Hin as [m' [Heq Hm']].
      apply (Hfr m' Hm'). rewrite <- Heq. apply elem_of_app. right. left.
    + intros m' Hm'. apply elem_of_cons in Hm' as [->|Hm']; [exact Hm|].
      intros Hin. apply (Hfr m' Hm'). apply elem_of_app. left. exact Hin.
Qed.

Lemma first_occurrences_complete (seen : list string) (ms : list LegacyModelSummary) :
  forall m, m ∈ ms ->
    l_model_id m ∈ seen \/
    exists m', m' ∈ first_occurrences seen ms /\ l_model_id m' = l_model_id m.
Proof.
  revert seen. induction ms as [|m0 ms IH]; intros seen m Hm; cbn.
  - apply elem_of_nil in Hm. contradiction.
  - destruct (seen_b seen (l_model_id m0)) eqn:Hs.
    + apply elem_of_cons in Hm as [->|Hm].
      * left. apply seen_b_spec. exact Hs.
      * apply IH. exact Hm.
    + apply elem_of_cons in Hm as [->|Hm].
      * right. exists m0. split; [left | reflexivity].
      * destruct (IH (seen ++ [l_model_id m0]) m Hm) as [Hin|[m' [Hm' Heq]]].
        -- apply elem_of_app in Hin as [Hin|Hin]; [left; exact Hin|].
           apply list_elem_of_singleton in Hin. right. exists m0.
           split; [left | symmetry; exact Hin].
        -- right. exists m'. split; [right; exact Hm' | exact Heq].
Qed.

Lemma first_occurrences_first (seen : list string) (ms : list LegacyModelSummary) :
  forall m', m' ∈ first_occurrences seen ms ->
    exists pre post, ms = pre ++ m' :: post /\ l_model_id m' ∉ map l_model_id pre.
Proof.
  revert seen. induction ms as [|m ms IH]; intros seen m' Hm'; cbn in Hm'.
  - apply elem_of_nil in Hm'. contradiction.
  - destruct (seen_b seen (l_model_id m)) eqn:Hs.
    + destruct (IH seen m' Hm') as (pre & post & -> & Hnot).
      exists (m :: pre), post. split; [reflexivity|].
      cbn. intros Hin. apply elem_of_cons in Hin as [Heq|Hin]; [|contradiction].
      destruct (proj2 (first_occurrences_fresh seen _) m' Hm').
      rewrite Heq. apply seen_b_spec. exact Hs.
    + apply elem_of_cons in Hm' as [->|Hm'].
      * exists [], ms. split; [reflexivity|]. cbn. apply not_elem_of_nil.
      * destruct (IH _ m' Hm') as (pre & post & -> & Hnot).
        exists (m :: pre), post. split; [reflexivity|].
        cbn. intros Hin. apply elem_of_cons in Hin as [Heq|Hin]; [|contradiction].
        destruct (proj2 (first_occurrences_fresh _ _) m' Hm').
        rewrite Heq. apply elem_of_app. right. left.
Qed.

Lemma getAllModels_legacy (d : DataDir) :
  existsb (String.eqb "evaluation_results.json") (files d) = false ->
  getAllModels d = map normalize_legacy (first_occurrences [] (legacy_models d)).
Proof.
  intros Hno. unfold getAllModels. rewrite Hno.
  rewrite fold_add_file, fold_add_model. cbn.
  rewrite map_map. reflexivity.
Qed.

End ModelsClaims.

Module ModelsClaims2.
Import ModelsPage ModelsViews ModelsClaims ModelsFixtures.

Lemma includes_spec (fs : list string) (k : string) :
  existsb (String.eqb k) fs = true <-> k ∈ fs.
Proof.
  rewrite existsb_exists. split.
  - intros [k' [Hin Heq]]. apply String.eqb_eq in Heq. subst. apply list_elem_of_In. exact Hin.
  - intros Hin. exists k. split; [apply list_elem_of_In; exact Hin | apply String.eqb_refl].
Qed.

Lemma in_map_elem {A B : Type} (f : A -> B) (l : list A) (y : B) :
  y ∈ map f l <-> exists x, y = f x /\ x ∈ l.
Proof.
  rewrite list_elem_of_In, in_map_iff. split.
  - intros [x [<- Hx]]. exists x. split; [reflexivity | apply list_elem_of_In; exact Hx].
  - intros [x [-> Hx]]. exists x. split; [reflexivity | apply list_elem_of_In; exact Hx].
Qed.

(** C10: with evaluation_results.json in the data directory the list is
    the unified file's [models] mapping, one entry per key in entry order,
    whatever the legacy files hold; without it, the list holds one entry per
    [model_id] found in the other .json files (read as legacy comparison
    files, [model1] then [model2]), built from its first occurrence, with a
    missing cost or usage read as 0. *)
Theorem getAllModels_format_selection (d : DataDir) :
  ("evaluation_results.json" ∈ files d ->
     getAllModels d = map normalize_unified (u_models (unified_file d)) /\
     map key (getAllModels d) = map fst (u_models (unified_file d)) /\
     (forall lf, getAllModels (mkDir (files d) (unified_file d) lf) = getAllModels d)) /\
  ("evaluation_results.json" ∉ files d ->
     NoDup (map model_id (getAllModels d)) /\
     (forall m, m ∈ legacy_models d ->
        exists r, r ∈ getAllModels d /\ model_id r = l_model_id m) /\
     (forall r, r ∈ getAllModels d -> exists pre m post,
        legacy_models d = pre ++ m :: post /\ (l_model_id m ∉ map l_model_id pre) /\
        r = normalize_legacy m /\
        (l_costs m = None -> l_total_cost m = None -> n_total_cost r = 0%Q) /\
        (l_usage m = None -> n_total_input_tokens r = 0%Q /\ n_total_output_tokens r = 0%Q))).
Proof.
  split.
  - intros Hin. apply includes_spec in Hin.
    assert (Hu : getAllModels d = map normalize_unified (u_models (unified_file d))).
    { unfold getAllModels. rewrite Hin. reflexivity. }
    split; [exact Hu|split].
    + rewrite Hu, map_map. apply List.map_ext. intros [k m]. reflexivity.
    + intros lf. unfold getAllModels. cbn [files unified_file]. rewrite Hin. reflexivity.
  - intros Hnot.
    assert (Hno : existsb (String.eqb "evaluation_results.json") (files d) = false).
    { destruct (existsb _ _) eqn:He; [|reflexivity].
      apply includes_spec in He. contradiction. }
    rewrite (getAllModels_legacy d Hno).
    destruct (first_occurrences_fresh [] (legacy_models d)) as [Hnd _].
    split; [|split].
    + rewrite map_map. erewrite List.map_ext; [exact Hnd|]. intros m. reflexivity.
    + intros m Hm.
      destruct (first_occurrences_complete [] (legacy_models d) m Hm) as [Hs|[m' [Hm' Heq]]].
      * apply elem_of_nil in Hs. contradiction.
      * exists (normalize_legacy m'). split; [|exact Heq].
        apply in_map_elem. eauto.
    + intros r Hr. apply in_map_elem in Hr as [m [-> Hm]].
      destruct (first_occurrences_first [] (legacy_models d) m Hm) as (pre & post & Heq & Hfirst).
      exists pre, m, post. split; [exact Heq|]. split; [exact Hfirst|].
      split; [reflexivity|]. cbn. unfold costs_total, usage_input, usage_output.
      split; [intros -> ->; reflexivity | intros ->; split; reflexivity].
Qed.

Lemma getAllModels_format_selection_witness :
  getAllModels dir_unified = map normalize_unified (u_models unified_doc) /\
  NoDup (map model_id (getAllModels dir_legacy)).
Proof.
  split.
  - apply (getAllModels_format_selection dir_unified). vm_compute. right. left.
  - apply (getAllModels_format_selection dir_legacy).
    intros H. apply includes_spec in H. vm_compute in H. discriminate H.
Defined.

Example getAllModels_legacy_example :
  map name (getAllModels dir_legacy) = ["GPT-4o-mini"; "GPT-5-mini"; "GPT-5-nano"]%string.
Proof. vm_compute. reflexivity. Qed.

End ModelsClaims2.

(** ** The evaluation pipeline (modelled from the spec) *)
Module PipelineFacts.
Import Pipeline.

Section Cells.
Variable api : ModelConfig -> Question -> ApiOutcome.
Variable judge : Judge.

Lemma fold_record_miss (sched : list (ModelConfig * Question)) (m : Results) (k : string) (i : Z) :
  (forall x, x ∈ sched -> (key x.1, id x.2) <> (k, i)) ->
  fold_left (record_cell api judge) sched m !! (k, i) = m !! (k, i).
Proof.
  revert m. induction sched as [|x sched IH]; intros m Hno; cbn; [reflexivity|].
  rewrite IH by (intros y Hy; apply Hno; right; exact Hy).
  unfold record_cell. rewrite lookup_insert_ne; [reflexivity|].
  apply Hno. left.
Qed.

Lemma fold_record_hit (sched : list (ModelConfig * Question)) (m : Results)
    (k : string) (i : Z) (v : Cell) :
  (forall x, x ∈ sched -> (key x.1, id x.2) = (k, i) -> eval_cell api judge x.1 x.2 = v) ->
  (exists x, x ∈ sched /\ (key x.1, id x.2) = (k, i)) ->
  fold_left (record_cell api judge) sched m !! (k, i) = Some v.
Proof.
  revert m. induction sched as [|x sched IH]; intros m Hv [y [Hy Hyk]]; cbn.
  - apply elem_of_nil in Hy. contradiction.
  - destruct (decide (Exists (fun z => (key z.1, id z.2) = (k, i)) sched)) as [Hz|Hz];
      rewrite Exists_exists in Hz.
    + apply IH; [intros z Hz' Hzk; apply Hv; [right|]; assumption | exact Hz].
    + rewrite fold_record_miss.
      * apply elem_of_cons in Hy as [->|Hy]; [|destruct Hz; eauto].
        unfold record_cell. rewrite Hyk, lookup_insert_eq. f_equal.
        apply Hv; [left | exact Hyk].
      * intros z Hz' Hzk. apply Hz. eauto.
Qed.

Lemma NoDup_map_inj {A B : Type} (f : A -> B) (l : list A) (x y : A) :
  NoDup (map f l) -> x ∈ l -> y ∈ l -> f x = f y -> x = y.
Proof.
  induction l as [|a l IH]; intros Hnd Hx Hy Hf; [apply elem_of_nil in Hx; contradiction|].
  cbn in Hnd. apply NoDup_cons in Hnd as [Hna Hnd].
  apply elem_of_cons in Hx as [->|Hx]; apply elem_of_cons in Hy as [->|Hy]; auto.
  - destruct Hna. rewrite Hf. apply list_elem_of_In, in_map, list_elem_of_In. exact Hy.
  - destruct Hna. rewrite <- Hf. apply list_elem_of_In, in_map, list_elem_of_In. exact Hx.
Qed.

Lemma elem_of_all_cells (configs : list ModelConfig) (qs : list Question) c q :
  (c, q) ∈ all_cells configs qs <-> c ∈ configs /\ q ∈ qs.
Proof.
  unfold all_cells. rewrite !list_elem_of_In. apply in_prod_iff.
Qed.

Variables (configs : list ModelConfig) (qs : list Question).
Hypothesis keys_unique : NoDup (map key configs).
Hypothesis ids_unique : NoDup (map id qs).

(** Every cell of the matrix is found under its (model key, question id),
    whatever the completion order. *)
Lemma collect_complete (sched : list (ModelConfig * Question)) c q :
  sched ≡ₚ all_cells configs qs -> c ∈ configs -> q ∈ qs ->
  collect api judge sched !! (key c, id q) = Some (eval_cell api judge c q).
Proof.
  intros Hp Hc Hq. apply fold_record_hit.
  - intros [c' q'] Hx Hk. cbn in *. injection Hk as Hk1 Hk2.
    rewrite Hp in Hx. apply elem_of_all_cells in Hx as [Hc' Hq'].
    rewrite (NoDup_map_inj key configs c' c keys_unique Hc' Hc Hk1).
    rewrite (NoDup_map_inj id qs q' q ids_unique Hq' Hq Hk2). reflexivity.
  - exists (c, q). split; [|reflexivity]. rewrite Hp. apply elem_of_all_cells. auto.
Qed.

Lemma collect_sound (sched : list (ModelConfig * Question)) k i :
  sched ≡ₚ all_cells configs qs ->
  (forall c q, c ∈ configs -> q ∈ qs -> (key c, id q) <> (k, i)) ->
  collect api judge sched !! (k, i) = None.
Proof.
  intros Hp Hno. unfold collect. rewrite fold_record_miss; [apply lookup_empty|].
  intros [c q] Hx. rewrite Hp in Hx. apply elem_of_all_cells in Hx as [Hc Hq]. auto.
Qed.

Lemma collect_order_independent (sched1 sched2 : list (ModelConfig * Question)) :
  sched1 ≡ₚ all_cells configs qs -> sched2 ≡ₚ all_cells configs qs ->
  collect api judge sched1 = collect api judge sched2.
Proof.
  intros H1 H2. apply map_eq. intros [k i].
  destruct (decide (Exists (fun x => (key x.1, id x.2) = (k, i)) (all_cells configs qs)))
    as [Hx|Hno]; rewrite Exists_exists in *.
  - destruct Hx as [[c q] [Hx Hk]]. apply elem_of_all_cells in Hx as [Hc Hq].
    cbn in Hk. rewrite <- Hk, !collect_complete by assumption. reflexivity.
  - assert (Hn : forall c q, c ∈ configs -> q ∈ qs -> (key c, id q) <> (k, i)).
    { intros c q Hc Hq Hk. apply Hno. exists (c, q).
      split; [apply elem_of_all_cells; auto | exact Hk]. }
    rewrite (collect_sound sched1 k i H1 Hn), (collect_sound sched2 k i H2 Hn).
    reflexivity.
Qed.

Lemma cells_of_complete (sched : list (ModelConfig * Question)) c :
  sched ≡ₚ all_cells configs qs -> c ∈ configs ->
  cells_of (collect api judge sched) qs (key c) = map (eval_cell api judge c) qs.
Proof.
  intros Hp Hc. unfold cells_of.
  assert (Hq : forall q, q ∈ qs -> collect api judge sched !! (key c, id q)
                                   = Some (eval_cell api judge c q))
    by (intros; apply collect_complete; assumption).
  revert Hq. generalize qs as l. intros l.
  induction l as [|q l IH]; intros Hq; cbn; [reflexivity|].
  rewrite (Hq q (list_elem_of_here q l)).
  rewrite IH; [reflexivity|]. intros q' Hq'. apply Hq. right. exact Hq'.
Qed.

Lemma list_to_map_lookup_map {K A X : Type} `{Countable K}
    (f : X -> K) (g : X -> A) (l : list X) (x : X) :
  NoDup (map f l) -> x ∈ l ->
  (list_to_map (map (fun y => (f y, g y)) l) : gmap K A) !! f x = Some (g x).
Proof.
  intros Hnd Hx. apply elem_of_list_to_map_1.
  - replace ((map (fun y => (f y, g y)) l).*1) with (map f l); [exact Hnd|].
    clear. induction l as [|y l IH]; cbn; [reflexivity|]. rewrite IH. reflexivity.
  - apply list_elem_of_In, in_map_iff. exists x. split; [reflexivity|].
    apply list_elem_of_In. exact Hx.
Qed.

Lemma run_models_lookup (sched : list (ModelConfig * Question)) (now : string) c :
  sched ≡ₚ all_cells configs qs -> c ∈ configs ->
  models (run api judge now configs qs sched) !! key c
  = Some (summarize (map (eval_cell api judge c) qs)).
Proof.
  intros Hp Hc. unfold run. cbn.
  rewrite (list_to_map_lookup_map key
             (fun c0 => summarize (cells_of (collect api judge sched) qs (key c0))))
    by assumption.
  rewrite cells_of_complete by assumption. reflexivity.
Qed.

Lemma run_cell_lookup (sched : list (ModelConfig * Question)) (now : string) c q :
  sched ≡ₚ all_cells configs qs -> c ∈ configs -> q ∈ qs ->
  (per_question_responses (run api judge now configs qs sched) !! id q)
    ≫= (fun resp => resp !! key c)
  = Some (eval_cell api judge c q).
Proof.
  intros Hp Hc Hq. unfold run. cbn.
  rewrite (list_to_map_lookup_map id
             (fun q0 => responses_of (collect api judge sched) configs (id q0)))
    by assumption.
  cbn. unfold responses_of.
  assert (Ho : omap (fun c0 => (fun cell => (key c0, cell)) <$> collect api judge sched !! (key c0, id q))
                    configs
               = map (fun c0 => (key c0, eval_cell api judge c0 q)) configs).
  { assert (Hall : forall c0, c0 ∈ configs ->
              collect api judge sched !! (key c0, id q) = Some (eval_cell api judge c0 q))
      by (intros; apply collect_complete; assumption).
    revert Hall. generalize configs as l. intros l.
    induction l as [|c0 l IH]; intros Hall; cbn; [reflexivity|].
    rewrite (Hall c0 (list_elem_of_here c0 l)). cbn.
    rewrite IH; [reflexivity|]. intros c1 Hc1. apply Hall. right. exact Hc1. }
  rewrite Ho. apply (list_to_map_lookup_map key (fun c0 => eval_cell api judge c0 q));
    assumption.
Qed.

End Cells.

End PipelineFacts.

Module PipelineClaims.
Import Pipeline PipelineMeasures PipelineFacts.

Lemma eval_cell_wf api judge c q : cell_wf (eval_cell api judge c q).
Proof.
  unfold cell_wf, eval_cell, invoke, invocation_error, has_error.
  destruct (api c q); cbn -[grade_response]; [|split; [reflexivity | discriminate]].
  destruct (grade_response judge q reply); cbn; split; (discriminate || eauto).
Qed.

Lemma clean_no_error (x : Cell) : cell_wf x -> clean x = negb (has_error x).
Proof.
  intros [Hi _]. unfold clean, grading_error.
  destruct (invocation_error x); [rewrite Hi by reflexivity|]; reflexivity.
Qed.

Lemma fold_acc (cells : list Cell) (a : Acc) :
  Forall cell_wf cells ->
  n_ok (fold_left acc_step cells a) = (n_ok a + length (List.filter clean cells))%nat /\
  n_err (fold_left acc_step cells a)
    = (n_err a + length (List.filter (fun x => negb (clean x)) cells))%nat /\
  n_all (fold_left acc_step cells a) = (n_all a + length cells)%nat /\
  score_sum (fold_left acc_step cells a)
    = fold_left Qplus (map cell_score (List.filter clean cells)) (score_sum a) /\
  n_timed (fold_left acc_step cells a)
    = (n_timed a + length (List.filter (fun x => negb (invocation_error x)) cells))%nat /\
  latency_sum (fold_left acc_step cells a)
    = fold_left Qplus (map (fun x => latency_ms (record x))
                         (List.filter (fun x => negb (invocation_error x)) cells))
                (latency_sum a) /\
  cost_sum (fold_left acc_step cells a)
    = fold_left Qplus (map (fun x => cost (record x)) cells) (cost_sum a).
Proof.
  revert a. induction cells as [|x cells IH]; intros a Hwf.
  - cbn. repeat split; lia.
  - apply Forall_cons in Hwf as [Hx Hwf].
    cbn [fold_left]. destruct (IH (acc_step a x) Hwf) as (H1 & H2 & H3 & H4 & H5 & H6 & H7).
    rewrite H1, H2, H3, H4, H5, H6, H7. clear H1 H2 H3 H4 H5 H6 H7 IH.
    cbn [List.filter]. rewrite (clean_no_error x Hx).
    destruct Hx as [Hi Hg]. unfold acc_step, has_error in *.
    destruct (error (record x)) as [e|] eqn:He.
    + destruct (invocation_error x) eqn:Hinv; cbn; rewrite ?He, ?Hinv;
        destruct (grade x); cbn; repeat split; lia.
    + destruct (Hg eq_refl) as [g Hgx].
      destruct (invocation_error x) eqn:Hinv; [discriminate (Hi eq_refl)|].
      unfold cell_score. cbn. rewrite ?He, ?Hinv, ?Hgx. cbn. repeat split; lia.
Qed.

Lemma score_of_add (dm : Dimension) (sc : Scores) (g : GradeRecord) :
  score_of dm (scores_add sc g) = (score_of dm sc + inject_Z (grade_dim dm g))%Q.
Proof. destruct dm; reflexivity. Qed.

Lemma score_of_mean (dm : Dimension) (sc : Scores) (n : nat) :
  score_of dm (scores_mean sc n) = mean (score_of dm sc) n.
Proof. destruct dm; reflexivity. Qed.

Lemma fold_acc_dims (cells : list Cell) (a : Acc) (dm : Dimension) :
  Forall cell_wf cells ->
  score_of dm (dim_sum (fold_left acc_step cells a))
  = fold_left Qplus (map (cell_dim dm) (List.filter clean cells)) (score_of dm (dim_sum a)).
Proof.
  revert a. induction cells as [|x cells IH]; intros a Hwf; [reflexivity|].
  apply Forall_cons in Hwf as [Hx Hwf].
  cbn [fold_left List.filter]. rewrite (IH _ Hwf). rewrite (clean_no_error x Hx).
  destruct Hx as [Hi Hg]. unfold acc_step, has_error in *.
  destruct (error (record x)) as [e|] eqn:He.
  - destruct (invocation_error x), (grade x); reflexivity.
  - destruct (Hg eq_refl) as [g Hgx]. rewrite Hgx.
    destruct (invocation_error x); cbn; rewrite score_of_add; unfold cell_dim; rewrite Hgx;
      reflexivity.
Qed.

Lemma fold_acc_latencies (cells : list Cell) (a : Acc) :
  latencies (fold_left acc_step cells a)
  = latencies a ++ map (fun x => latency_ms (record x))
                       (List.filter (fun x => negb (invocation_error x)) cells).
Proof.
  revert a. induction cells as [|x cells IH]; intros a.
  - cbn. rewrite app_nil_r. reflexivity.
  - cbn [fold_left List.filter]. rewrite IH. unfold acc_step.
    destruct (error (record x)), (grade x), (invocation_error x); cbn;
      rewrite <- ?app_assoc; reflexivity.
Qed.

Section Run.
Variables (api : ModelConfig -> Question -> ApiOutcome) (judge : Judge) (now : string).
Variables (configs : list ModelConfig) (qs : list Question).
Hypothesis keys_unique : NoDup (map key configs).
Hypothesis ids_unique : NoDup (map id qs).

Lemma model_cells_wf c : Forall cell_wf (model_cells api judge c qs).
Proof.
  apply Forall_forall. intros x Hx. unfold model_cells in Hx.
  apply list_elem_of_In, in_map_iff in Hx as [q [<- _]]. apply eval_cell_wf.
Qed.

Lemma filter_length_split {A : Type} (p : A -> bool) (l : list A) :
  (length (List.filter p l) + length (List.filter (fun x => negb (p x)) l) = length l)%nat.
Proof. induction l as [|x l IH]; cbn; [reflexivity|]. destruct (p x); cbn; lia. Qed.

Lemma filter_ext_in {A : Type} (p p' : A -> bool) (l : list A) :
  (forall x, x ∈ l -> p x = p' x) -> List.filter p l = List.filter p' l.
Proof.
  induction l as [|x l IH]; intros Hp; cbn; [reflexivity|].
  rewrite (Hp x (list_elem_of_here x l)).
  rewrite IH; [reflexivity|]. intros y Hy. apply Hp. right. exact Hy.
Qed.

Lemma filter_not_clean c :
  List.filter (fun x => negb (clean x)) (model_cells api judge c qs)
  = List.filter has_error (model_cells api judge c qs).
Proof.
  apply filter_ext_in. intros x Hx.
  pose proof (proj1 (Forall_forall _ _) (model_cells_wf c) x Hx) as Hwf.
  rewrite (clean_no_error x Hwf). destruct (has_error x); reflexivity.
Qed.

(** C2: in the summary of every configured model, successful plus errored
    responses make the total, and the total is the number of questions. *)
Theorem summary_counts_partition (sched : list (ModelConfig * Question)) (c : ModelConfig) :
  sched ≡ₚ all_cells configs qs -> c ∈ configs ->
  exists s, models (run api judge now configs qs sched) !! key c = Some s /\
    (successful_count s + error_count s = total_count s)%nat /\
    total_count s = length qs /\
    error_count s = length (List.filter has_error (model_cells api judge c qs)).
Proof.
  intros Hp Hc. eexists. split; [eapply run_models_lookup; eassumption|].
  destruct (fold_acc (model_cells api judge c qs) acc0 (model_cells_wf c))
    as (H1 & H2 & H3 & _).
  unfold summarize. cbn. unfold model_cells in *.
  rewrite H1, H2, H3. cbn.
  split; [apply filter_length_split|]. split; [apply length_map|].
  pose proof (filter_not_clean c) as Hf. unfold model_cells in Hf. rewrite Hf. reflexivity.
Qed.

(** C3: [avg_score] and each per-dimension average of [scores] are means
    over exactly the cells with neither an invocation nor a grading error;
    [avg_latency_ms] and [p95_latency_ms] are taken over every cell whose
    invocation succeeded, and [total_cost] over every cell; so a cell with a
    grading error is left out of the score statistics but its latency and
    cost are counted. *)
Theorem avg_score_over_clean_cells (sched : list (ModelConfig * Question)) (c : ModelConfig) :
  sched ≡ₚ all_cells configs qs -> c ∈ configs ->
  exists s, models (run api judge now configs qs sched) !! key c = Some s /\
    avg_score s = mean (sumQ (map cell_score (List.filter clean (model_cells api judge c qs))))
                       (length (List.filter clean (model_cells api judge c qs))) /\
    (forall x, x ∈ List.filter clean (model_cells api judge c qs) ->
       exists g, grade x = Some g /\ cell_score x = average g) /\
    (forall dm, score_of dm (scores s)
       = mean (sumQ (map (cell_dim dm) (List.filter clean (model_cells api judge c qs))))
              (length (List.filter clean (model_cells api judge c qs)))) /\
    avg_latency_ms s
      = mean (sumQ (map (fun x => latency_ms (record x))
                      (List.filter (fun x => negb (invocation_error x)) (model_cells api judge c qs))))
             (length (List.filter (fun x => negb (invocation_error x)) (model_cells api judge c qs))) /\
    p95_latency_ms s
      = percentile 95 (map (fun x => latency_ms (record x))
                         (List.filter (fun x => negb (invocation_error x)) (model_cells api judge c qs))) /\
    total_cost s = sumQ (map (fun x => cost (record x)) (model_cells api judge c qs)) /\
    (forall x, x ∈ model_cells api judge c qs -> grading_error x = true ->
       (x ∉ List.filter clean (model_cells api judge c qs)) /\
       x ∈ List.filter (fun x => negb (invocation_error x)) (model_cells api judge c qs)).
Proof.
  intros Hp Hc. eexists. split; [eapply run_models_lookup; eassumption|].
  destruct (fold_acc (model_cells api judge c qs) acc0 (model_cells_wf c))
    as (H1 & _ & _ & H4 & H5 & H6 & H7).
  unfold summarize. cbn. unfold model_cells in *.
  rewrite H1, H4, H5, H6, H7. cbn. unfold sumQ.
  split; [reflexivity|]. split; [|split; [|split; [reflexivity|split; [|split; [reflexivity|]]]]].
  - intros x Hx. apply list_elem_of_In, filter_In in Hx as [Hx Hcl].
    apply list_elem_of_In in Hx.
    pose proof (proj1 (Forall_forall _ _) (model_cells_wf c) x Hx) as Hwf.
    rewrite (clean_no_error x Hwf) in Hcl.
    destruct Hwf as [_ Hg]. destruct (has_error x); [discriminate|].
    destruct (Hg eq_refl) as [g Hgx]. exists g. unfold cell_score. rewrite Hgx. auto.
  - intros dm. rewrite score_of_mean, (fold_acc_dims _ _ dm (model_cells_wf c)).
    unfold model_cells. destruct dm; reflexivity.
  - rewrite fold_acc_latencies. reflexivity.
  - intros x Hx Hge. unfold grading_error in Hge. apply andb_true_iff in Hge as [Hi Hh].
    split.
    + intros Hin. apply list_elem_of_In, filter_In in Hin as [_ Hcl].
      unfold clean, grading_error in Hcl. rewrite Hi, Hh in Hcl. discriminate Hcl.
    + apply list_elem_of_In, filter_In. split; [apply list_elem_of_In; exact Hx | exact Hi].
Qed.

(** C4 (amended): [total_cost] is the sum of [cost] over all the model's
    cells; a cell whose invocation failed has cost and token counts 0, and a
    cell whose invocation succeeded, a grading failure included, costs
    input_tokens * input price / 1e6 + output_tokens * output price / 1e6. *)
Theorem total_cost_sum_of_cells (sched : list (ModelConfig * Question)) (c : ModelConfig) :
  sched ≡ₚ all_cells configs qs -> c ∈ configs ->
  exists s, models (run api judge now configs qs sched) !! key c = Some s /\
    total_cost s = sumQ (map (fun x => cost (record x)) (model_cells api judge c qs)) /\
    (forall q, q ∈ qs -> invocation_error (eval_cell api judge c q) = true ->
       cost (record (eval_cell api judge c q)) = 0%Q /\
       input_tokens (record (eval_cell api judge c q)) = 0%Z /\
       output_tokens (record (eval_cell api judge c q)) = 0%Z) /\
    (forall q, q ∈ qs -> invocation_error (eval_cell api judge c q) = false ->
       cost (record (eval_cell api judge c q))
       = (inject_Z (input_tokens (record (eval_cell api judge c q)))
            * input_price_per_million (pricing c) / 1000000
          + inject_Z (output_tokens (record (eval_cell api judge c q)))
            * output_price_per_million (pricing c) / 1000000)%Q).
Proof.
  intros Hp Hc. eexists. split; [eapply run_models_lookup; eassumption|].
  destruct (fold_acc (model_cells api judge c qs) acc0 (model_cells_wf c))
    as (_ & _ & _ & _ & _ & _ & H7).
  unfold summarize. cbn. unfold model_cells in *. rewrite H7. cbn.
  split; [reflexivity|]. split.
  - intros q _. unfold eval_cell, invoke, invocation_error.
    destruct (api c q); cbn -[grade_response]; [|auto].
    destruct (grade_response judge q reply); cbn; discriminate.
  - intros q _. unfold eval_cell, invoke, invocation_error.
    destruct (api c q); cbn -[grade_response]; [|discriminate].
    destruct (grade_response judge q reply); cbn; reflexivity.
Qed.

(** C7: the run lists the questions and the model keys in input order, for
    any completion order of the cells and whatever the model calls return,
    and two complete completion orders give the same run. *)
Theorem run_preserves_input_order (sched1 sched2 : list (ModelConfig * Question))
    (api' : ModelConfig -> Question -> ApiOutcome) (judge' : Judge) (now' : string) :
  sched1 ≡ₚ all_cells configs qs -> sched2 ≡ₚ all_cells configs qs ->
  questions (run api judge now configs qs sched1) = qs /\
  model_keys (run api judge now configs qs sched1) = map key configs /\
  questions (run api' judge' now' configs qs sched2) = qs /\
  model_keys (run api' judge' now' configs qs sched2) = map key configs /\
  run api judge now configs qs sched1 = run api judge now configs qs sched2.
Proof.
  intros H1 H2. do 4 (split; [reflexivity|]).
  unfold run. rewrite (collect_order_independent api judge configs qs keys_unique ids_unique
                         sched1 sched2 H1 H2).
  reflexivity.
Qed.

End Run.
End PipelineClaims.

Module PipelineExcFacts.
Import Pipeline PipelineExc.

Lemma invoke_call_ok (t : Transport) (config : ModelConfig) (q : Question) :
  invoke_call t config q = Done (invoke (api_of t) config q).
Proof.
  unfold invoke_call, invoke, api_of.
  destruct (t config q) as [lat [rep|e]]; reflexivity.
Qed.

Lemma judge_attempt_ok (jc : JudgeCall) (n : nat) (q : Question) (resp : string) :
  judge_attempt jc n q resp = Done (parse_grade (judge_of jc n q resp)).
Proof. unfold judge_attempt, judge_of. destruct (jc n q resp); reflexivity. Qed.

Lemma grade_attempts_call_ok (jc : JudgeCall) (q : Question) (resp : string) (fuel : nat) :
  forall n, grade_attempts_call jc q resp n fuel
            = Done (grade_attempts (judge_of jc) q resp n fuel).
Proof.
  induction fuel as [|fuel IH]; intros n; cbn [grade_attempts_call grade_attempts];
    rewrite judge_attempt_ok; cbn;
    destruct (parse_grade (judge_of jc n q resp)); try reflexivity.
  apply IH.
Qed.

Lemma eval_cell_call_ok (t : Transport) (jc : JudgeCall) (config : ModelConfig)
    (q : Question) :
  eval_cell_call t jc config q = Done (eval_cell (api_of t) (judge_of jc) config q).
Proof.
  unfold eval_cell_call, eval_cell. rewrite invoke_call_ok. cbn [mbind exc_bind].
  unfold grade_call, grade_response.
  destruct (invoke (api_of t) config q) as [txt lat i o co [err|]]; cbn [error response_text];
    [reflexivity|].
  destruct txt as [reply|]; [|reflexivity].
  rewrite grade_attempts_call_ok.
  destruct (grade_attempts (judge_of jc) q reply 0 grading_retries); reflexivity.
Qed.

Lemma fold_exc_record_ok (t : Transport) (jc : JudgeCall)
    (sched : list (ModelConfig * Question)) :
  forall res, fold_exc (record_cell_call t jc) sched res
              = Done (fold_left (record_cell (api_of t) (judge_of jc)) sched res).
Proof.
  induction sched as [|x sched IH]; intros res; [reflexivity|].
  cbn [fold_exc fold_left]. unfold record_cell_call. rewrite eval_cell_call_ok.
  apply IH.
Qed.

Lemma run_call_ok (t : Transport) (jc : JudgeCall) (now : string)
    (configs : list ModelConfig) (qs : list Question)
    (sched : list (ModelConfig * Question)) :
  run_call t jc now configs qs sched = Done (run (api_of t) (judge_of jc) now configs qs sched).
Proof. unfold run_call, run, collect. rewrite fold_exc_record_ok. reflexivity. Qed.

End PipelineExcFacts.

Module ProcessClaims.
Import Pipeline PipelineExc PipelineExcFacts PipelineMeasures PipelineFacts PipelineClaims Report PipelineFixtures.

(** C4 (counterexample): in the fixture run, the judge's replies to
    question 3 never parse, so the cell of GPT-4o-mini on it has [error]
    set, yet its cost is not 0, and the model's [total_cost] differs from
    the sum of the costs of its cells without error. *)
Lemma total_cost_errored_cell_counterexample :
  match per_question_responses run_fixture !! 3%Z ≫= (fun r => r !! "gpt-4o-mini"),
        models run_fixture !! "gpt-4o-mini" with
  | Some x, Some s =>
      has_error x = true /\ grading_error x = true /\ ~ (cost (record x) == 0)%Q /\
      ~ (total_cost s
         == sumQ (map (fun y => cost (record y))
                   (List.filter (fun y => negb (has_error y))
                      (model_cells api_fixture judge_fixture cfg_4o questions_fixture))))%Q
  | _, _ => False
  end.
Proof.
  vm_compute. split; [reflexivity|]. split; [reflexivity|].
  split; intros Hc; discriminate Hc.
Qed.

(** C6: a model call that raises (timeout, API error, malformed payload) is
    caught by the Model Invoker, which returns a record with [error] set to
    its cause and zero cost and tokens; a judge call that raises counts as a
    failed grading attempt; so no cell, and no run, raises. The process
    raises only a setup failure on a bad setup or a write failure when the
    destination refuses the write, and otherwise writes the run, with a
    record for every (model, question) cell. *)
Theorem cell_failures_absorbed (setup : Setup) (t : Transport) (jc : JudgeCall)
    (now : string) (configs : list ModelConfig)
    (schedule : list Question -> list (ModelConfig * Question)) (writable : bool) :
  (forall c q lat e, t c q = (lat, Raised e) ->
     invoke_call t c q = Done (mkResponse None lat 0 0 0%Q (Some (describe e))) /\
     eval_cell_call t jc c q = Done (mkCell (mkResponse None lat 0 0 0%Q (Some (describe e))) None)) /\
  (forall n q resp e, jc n q resp = Raised e -> judge_attempt jc n q resp = Done None) /\
  (forall c q, exists cell, eval_cell_call t jc c q = Done cell) /\
  (forall qs sched, exists r, run_call t jc now configs qs sched = Done r) /\
  (forall e, main setup t jc now configs schedule writable = Raised e ->
     (exists msg, e = SetupFailure msg /\
        (credential setup = None \/ input_rows setup = None \/ configs_valid setup = false)) \/
     (exists msg, e = WriteFailure msg /\ writable = false)) /\
  (forall cred qs, credential setup = Some cred -> input_rows setup = Some qs ->
     configs_valid setup = true -> writable = true ->
     NoDup (map key configs) -> NoDup (map id qs) -> schedule qs ≡ₚ all_cells configs qs ->
     exists r, run_call t jc now configs qs (schedule qs) = Done r /\
       main setup t jc now configs schedule writable = Done (write_run r) /\
       forall c q, c ∈ configs -> q ∈ qs ->
         exists cell, eval_cell_call t jc c q = Done cell /\
           (per_question_responses r !! id q ≫= (fun resp => resp !! key c)) = Some cell).
Proof.
  split; [|split; [|split; [|split; [|split]]]].
  - intros c q lat e Ht. unfold eval_cell_call, invoke_call. rewrite Ht. auto.
  - intros n q resp e Hj. unfold judge_attempt. rewrite Hj. reflexivity.
  - intros c q. rewrite eval_cell_call_ok. eauto.
  - intros qs sched. rewrite run_call_ok. eauto.
  - intros e. unfold main, load_setup.
    destruct (credential setup), (input_rows setup);
      try (intros Hm; injection Hm as <-; left; eauto; fail).
    destruct (configs_valid setup); cbn;
      [|intros Hm; injection Hm as <-; left; eauto].
    rewrite run_call_ok. cbn. unfold write_output.
    destruct writable; cbn; intros Hm; [discriminate Hm|].
    injection Hm as <-. right. eauto.
  - intros cred qs Hc Hq Hv Hw Hk Hi Hp.
    exists (run (api_of t) (judge_of jc) now configs qs (schedule qs)).
    split; [apply run_call_ok|]. split.
    + unfold main, load_setup. rewrite Hc, Hq, Hv. cbn. rewrite run_call_ok. cbn.
      unfold write_output. rewrite Hw. reflexivity.
    + intros c q Hc' Hq'. exists (eval_cell (api_of t) (judge_of jc) c q).
      split; [apply eval_cell_call_ok|].
      exact (run_cell_lookup (api_of t) (judge_of jc) configs qs Hk Hi (schedule qs) now
               c q Hp Hc' Hq').
Qed.

End ProcessClaims.

Module ReportFacts.
Import Pipeline Report.

Lemma read_cell_json (c : Cell) : read_cell (cell_json c) = Some c.
Proof.
  destruct c as [[txt lat i o co err] g].
  destruct txt, err, g as [[a b c d e avg]|]; reflexivity.
Qed.

Lemma read_responses_json (l : list (string * Cell)) :
  read_responses (JObj (map (fun kc => (kc.1, cell_json kc.2)) l))
  = Some (list_to_map (rev l)).
Proof.
  cbn [read_responses].
  assert (mapM_opt (fun kv => c ← read_cell kv.2; Some (kv.1, c))
            (map (fun kc => (kc.1, cell_json kc.2)) l) = Some l) as ->.
  { induction l as [|[k c] l IH]; [reflexivity|].
    cbn [map mapM_opt fst snd]. rewrite read_cell_json. cbn. rewrite IH. reflexivity. }
  reflexivity.
Qed.

Lemma list_to_map_rev_to_list (m : gmap string Cell) :
  list_to_map (rev (map_to_list m)) = m.
Proof.
  rewrite <- (list_to_map_proper (map_to_list m) (rev (map_to_list m))).
  - apply list_to_map_to_list.
  - apply NoDup_fst_map_to_list.
  - apply Permutation_rev.
Qed.

Lemma question_fields (a b c d : json) :
  get (JObj [("id", a); ("question", b); ("context", c); ("responses", d)]) "id" = Some a /\
  get (JObj [("id", a); ("question", b); ("context", c); ("responses", d)]) "responses" = Some d.
Proof. split; reflexivity. Qed.

Lemma document_questions (a b c : json) :
  get (JObj [("metadata", a); ("models", b); ("questions", c)]) "questions" = Some c.
Proof. reflexivity. Qed.

Lemma read_question_json (pq : gmap Z (gmap string Cell)) (q : Question) :
  read_question (question_json pq q) = Some (id q, default ∅ (pq !! id q)).
Proof.
  unfold question_json, read_question.
  rewrite (proj1 (question_fields _ _ _ _)), (proj2 (question_fields _ _ _ _)).
  cbn -[read_responses]. rewrite read_responses_json, list_to_map_rev_to_list.
  reflexivity.
Qed.

Lemma mapM_read_questions (pq : gmap Z (gmap string Cell)) (qs : list Question) :
  mapM_opt read_question (map (question_json pq) qs)
  = Some (map (fun q => (id q, default ∅ (pq !! id q))) qs).
Proof.
  induction qs as [|q qs IH]; [reflexivity|].
  cbn [map mapM_opt]. rewrite read_question_json, IH. reflexivity.
Qed.

Lemma lookup_list_to_map_uniform {V : Type} (l : list (Z * V)) (i : Z) (v : V) :
  (exists w, (i, w) ∈ l) -> (forall w, (i, w) ∈ l -> w = v) ->
  (list_to_map l : gmap Z V) !! i = Some v.
Proof.
  induction l as [|[j w] l IH]; intros [w0 Hw0] Hall.
  - apply elem_of_nil in Hw0. contradiction.
  - rewrite list_to_map_cons. destruct (decide (j = i)) as [->|Hne].
    + rewrite lookup_insert_eq. f_equal. apply Hall, list_elem_of_here.
    + rewrite lookup_insert_ne by exact Hne. apply IH.
      * apply elem_of_cons in Hw0 as [Heq|Hw0]; [injection Heq; intros; subst; contradiction|].
        exists w0. exact Hw0.
      * intros w' Hw'. apply Hall, list_elem_of_further, Hw'.
Qed.

Lemma lookup_list_to_map_absent {V : Type} (l : list (Z * V)) (i : Z) :
  (forall w, (i, w) ∉ l) -> (list_to_map l : gmap Z V) !! i = None.
Proof.
  induction l as [|[j w] l IH]; intros Hno; [reflexivity|].
  rewrite list_to_map_cons. destruct (decide (j = i)) as [->|Hne].
  - exfalso. apply (Hno w), list_elem_of_here.
  - rewrite lookup_insert_ne by exact Hne. apply IH.
    intros w' Hw'. apply (Hno w'), list_elem_of_further, Hw'.
Qed.

Lemma elem_of_entries (pq : gmap Z (gmap string Cell)) (qs : list Question) i w :
  (i, w) ∈ rev (map (fun q => (id q, default ∅ (pq !! id q))) qs)
  <-> w = default ∅ (pq !! i) /\ In i (map id qs).
Proof.
  rewrite list_elem_of_In, <- in_rev, in_map_iff, in_map_iff. split.
  - intros [q [Heq Hq]]. injection Heq as <- <-. split; [reflexivity|]. eauto.
  - intros [-> [q [<- Hq]]]. eauto.
Qed.

End ReportFacts.

Module ReportClaims.
Import Pipeline Report ReportFacts.

(** C8: writing a run and reading the written document back gives the same
    (model key, question id) -> record mapping, for every run whose
    per-question responses are keyed by ids of its questions. *)
Theorem report_round_trip (r : EvaluationRun) :
  map_Forall (fun i _ => i ∈ map id (questions r)) (per_question_responses r) ->
  exists pq, read_cells (write_run r) = Some pq /\
    forall k i, lookup_cell pq k i = lookup_cell (per_question_responses r) k i.
Proof.
  intros Hdom. eexists. split.
  - unfold read_cells, write_run. rewrite document_questions.
    cbn [mbind option_bind]. rewrite mapM_read_questions. reflexivity.
  - intros k i. unfold lookup_cell.
    destruct (in_dec Z.eq_dec i (map id (questions r))) as [Hi|Hi].
    + rewrite (lookup_list_to_map_uniform _ i (default ∅ (per_question_responses r !! i))).
      * destruct (per_question_responses r !! i); [reflexivity|].
        cbn. apply lookup_empty.
      * eexists. apply elem_of_entries. split; [reflexivity | exact Hi].
      * intros w Hw. apply elem_of_entries in Hw as [-> _]. reflexivity.
    + rewrite lookup_list_to_map_absent.
      * destruct (per_question_responses r !! i) as [resp|] eqn:E; [|reflexivity].
        exfalso. apply Hi, list_elem_of_In. exact (Hdom i resp E).
      * intros w Hw. apply elem_of_entries in Hw as [_ Hw]. contradiction.
Qed.

End ReportClaims.

Module PipelineWitnesses.
Import Pipeline PipelineMeasures PipelineClaims PipelineFixtures Report ReportClaims.

Lemma summary_counts_partition_witness :
  exists s, models run_fixture !! key cfg_5 = Some s /\
    (successful_count s + error_count s = total_count s)%nat /\
    total_count s = length questions_fixture /\
    error_count s
      = length (List.filter has_error (model_cells api_fixture judge_fixture cfg_5 questions_fixture)).
Proof.
  unfold run_fixture.
  apply (summary_counts_partition api_fixture judge_fixture fixture_now configs_fixture
           questions_fixture).
  - apply (bool_decide_unpack _). vm_compute. reflexivity.
  - apply (bool_decide_unpack _). vm_compute. reflexivity.
  - unfold schedule_fixture. symmetry. apply Permutation_rev.
  - apply list_elem_of_In. simpl. auto.
Defined.

Lemma avg_score_over_clean_cells_witness :
  let cells := model_cells api_fixture judge_fixture cfg_4o questions_fixture in
  exists s, models run_fixture !! key cfg_4o = Some s /\
    avg_score s = mean (sumQ (map cell_score (List.filter clean cells)))
                       (length (List.filter clean cells)) /\
    (forall x, x ∈ List.filter clean cells ->
       exists g, grade x = Some g /\ cell_score x = average g) /\
    (forall dm, score_of dm (scores s)
       = mean (sumQ (map (cell_dim dm) (List.filter clean cells)))
              (length (List.filter clean cells))) /\
    avg_latency_ms s
      = mean (sumQ (map (fun x => latency_ms (record x))
                      (List.filter (fun x => negb (invocation_error x)) cells)))
             (length (List.filter (fun x => negb (invocation_error x)) cells)) /\
    p95_latency_ms s
      = percentile 95 (map (fun x => latency_ms (record x))
                         (List.filter (fun x => negb (invocation_error x)) cells)) /\
    total_cost s = sumQ (map (fun x => cost (record x)) cells) /\
    (forall x, x ∈ cells -> grading_error x = true ->
       (x ∉ List.filter clean cells) /\
       x ∈ List.filter (fun x => negb (invocation_error x)) cells).
Proof.
  unfold run_fixture. cbv zeta.
  apply (avg_score_over_clean_cells api_fixture judge_fixture fixture_now configs_fixture
           questions_fixture).
  - apply (bool_decide_unpack _). vm_compute. reflexivity.
  - apply (bool_decide_unpack _). vm_compute. reflexivity.
  - unfold schedule_fixture. symmetry. apply Permutation_rev.
  - apply list_elem_of_In. simpl. auto.
Defined.

Lemma total_cost_sum_of_cells_witness :
  exists s, models run_fixture !! key cfg_4o = Some s /\
    total_cost s = sumQ (map (fun x => cost (record x))
                          (model_cells api_fixture judge_fixture cfg_4o questions_fixture)) /\
    (forall q, q ∈ questions_fixture ->
       invocation_error (eval_cell api_fixture judge_fixture cfg_4o q) = true ->
       cost (record (eval_cell api_fixture judge_fixture cfg_4o q)) = 0%Q /\
       input_tokens (record (eval_cell api_fixture judge_fixture cfg_4o q)) = 0%Z /\
       output_tokens (record (eval_cell api_fixture judge_fixture cfg_4o q)) = 0%Z) /\
    (forall q, q ∈ questions_fixture ->
       invocation_error (eval_cell api_fixture judge_fixture cfg_4o q) = false ->
       cost (record (eval_cell api_fixture judge_fixture cfg_4o q))
       = (inject_Z (input_tokens (record (eval_cell api_fixture judge_fixture cfg_4o q)))
            * input_price_per_million (pricing cfg_4o) / 1000000
          + inject_Z (output_tokens (record (eval_cell api_fixture judge_fixture cfg_4o q)))
            * output_price_per_million (pricing cfg_4o) / 1000000)%Q).
Proof.
  unfold run_fixture.
  apply (total_cost_sum_of_cells api_fixture judge_fixture fixture_now configs_fixture
           questions_fixture).
  - apply (bool_decide_unpack _). vm_compute. reflexivity.
  - apply (bool_decide_unpack _). vm_compute. reflexivity.
  - unfold schedule_fixture. symmetry. apply Permutation_rev.
  - apply list_elem_of_In. simpl. auto.
Defined.

Lemma run_preserves_input_order_witness :
  questions run_fixture = questions_fixture /\
  model_keys run_fixture = map key configs_fixture /\
  questions (run api_down judge_fixture "later" configs_fixture questions_fixture
               (all_cells configs_fixture questions_fixture)) = questions_fixture /\
  model_keys (run api_down judge_fixture "later" configs_fixture questions_fixture
               (all_cells configs_fixture questions_fixture)) = map key configs_fixture /\
  run_fixture
  = run api_fixture judge_fixture fixture_now configs_fixture questions_fixture
      (all_cells configs_fixture questions_fixture).
Proof.
  unfold run_fixture.
  apply (run_preserves_input_order api_fixture judge_fixture fixture_now configs_fixture
           questions_fixture).
  - apply (bool_decide_unpack _). vm_compute. reflexivity.
  - apply (bool_decide_unpack _). vm_compute. reflexivity.
  - unfold schedule_fixture. symmetry. apply Permutation_rev.
  - reflexivity.
Defined.

Lemma report_round_trip_witness :
  exists pq, read_cells (write_run run_fixture) = Some pq /\
    forall k i, lookup_cell pq k i = lookup_cell (per_question_responses run_fixture) k i.
Proof.
  apply report_round_trip.
  apply (bool_decide_unpack _). vm_compute. reflexivity.
Defined.

Lemma cell_failures_absorbed_witness :
  exists r,
    Report.main setup_fixture transport_fixture judge_call_fixture fixture_now configs_fixture
      (fun qs => rev (all_cells configs_fixture qs)) true = PipelineExc.Done (write_run r) /\
    (per_question_responses r !! 2%Z ≫= (fun resp => resp !! "gpt-5-mini-low"))
    = Some (mkCell (mkResponse None 30000 0 0 0 (Some "request timed out")) None).
Proof.
  destruct (ProcessClaims.cell_failures_absorbed setup_fixture transport_fixture
              judge_call_fixture fixture_now configs_fixture
              (fun qs => rev (all_cells configs_fixture qs)) true)
    as (Hraise & _ & _ & _ & _ & Hgood).
  destruct (Hgood "sk-test" questions_fixture eq_refl eq_refl eq_refl eq_refl)
    as (r & _ & Hm & Hcells).
  - apply (bool_decide_unpack _). vm_compute. reflexivity.
  - apply (bool_decide_unpack _). vm_compute. reflexivity.
  - symmetry. apply Permutation_rev.
  - exists r. split; [exact Hm|].
    destruct (Hcells cfg_5 (mkQuestion 2 "Is there a deductible?" ""))
      as (cell & Hc & Hl).
    + apply list_elem_of_In. simpl. auto.
    + apply list_elem_of_In. simpl. auto.
    + change (2%Z) with (id (mkQuestion 2 "Is there a deductible?" "")).
      change "gpt-5-mini-low" with (key cfg_5). rewrite Hl.
      destruct (Hraise cfg_5 (mkQuestion 2 "Is there a deductible?" "") 30000%Q
                  PipelineExc.Timeout eq_refl) as [_ He].
      rewrite He in Hc. injection Hc as <-. reflexivity.
Defined.

End PipelineWitnesses.

(** ** Further properties of the dashboard pages *)
Module QFacts.
#[local] Open Scope Q_scope.

Lemma Qgtb_iff (a b : Q) : Qgtb a b = true <-> b < a.
Proof.
  unfold Qgtb. rewrite negb_true_iff. split.
  - intros H. apply Qnot_le_lt. intros Hle. apply Qle_bool_iff in Hle. congruence.
  - intros H. destruct (Qle_bool a b) eqn:E; [|reflexivity].
    apply Qle_bool_iff in E. exfalso. exact (Qlt_not_le _ _ H E).
Qed.

Lemma Qgtb_false (a b : Q) : Qgtb a b = false <-> a <= b.
Proof.
  unfold Qgtb. rewrite negb_false_iff. apply Qle_bool_iff.
Qed.

Lemma Qgtb_asym (a b : Q) : Qgtb a b = true -> Qgtb b a = false.
Proof.
  intros H. apply Qgtb_iff in H. apply Qgtb_false. apply Qlt_le_weak. exact H.
Qed.

Lemma toFixed_nonneg (f : nat) (x : Q) :
  0 <= x -> exists n, toFixed f x = (false, n) /\ (0 <= n)%Z.
Proof.
  intros H. unfold toFixed.
  assert (E : Qgtb 0 x = false) by (apply Qgtb_false; exact H).
  rewrite E. eexists; split; [reflexivity|].
  change 0%Z with (Qfloor 0). apply Qfloor_resp_le.
  apply Qle_trans with (x * inject_Z (10 ^ Z.of_nat f)).
  - apply Qmult_le_0_compat; [exact H|].
    change 0 with (inject_Z 0). rewrite <- Zle_Qle. apply Z.pow_nonneg. lia.
  - rewrite <- (Qplus_0_r (x * inject_Z (10 ^ Z.of_nat f))) at 1.
    apply Qplus_le_compat; [apply Qle_refl | apply Qle_bool_iff; reflexivity].
Qed.

Lemma toFixed_comp (f : nat) (x y : Q) : x == y -> toFixed f x = toFixed f y.
Proof.
  intros H. unfold toFixed.
  assert (E : Qgtb 0 x = Qgtb 0 y).
  { destruct (Qgtb 0 x) eqn:E1, (Qgtb 0 y) eqn:E2; try reflexivity.
    - apply Qgtb_iff in E1. apply Qgtb_false in E2. rewrite H in E1.
      exfalso. exact (Qlt_not_le _ _ E1 E2).
    - apply Qgtb_false in E1. apply Qgtb_iff in E2. rewrite H in E1.
      exfalso. exact (Qlt_not_le _ _ E2 E1). }
  rewrite E. f_equal. apply Qfloor_comp.
  destruct (Qgtb 0 y); rewrite H; reflexivity.
Qed.

(** Three exclusive labels chosen by two sign tests name the order of [x]
    and [y]. *)
Lemma three_way_label (p n : bool) (sA sB sE : string) (x y : Q) :
  sA <> sB -> sA <> sE -> sB <> sE ->
  (p = true <-> y < x) -> (n = true <-> x < y) ->
  let l := if p then sA else if n then sB else sE in
  (l = sA <-> y < x) /\ (l = sB <-> x < y) /\ (l = sE <-> x == y).
Proof.
  intros HAB HAE HBE Hp Hn l. subst l.
  destruct p, n.
  - exfalso. apply proj1 in Hp, Hn. specialize (Hp eq_refl). specialize (Hn eq_refl).
    exact (Qlt_not_le _ _ Hp (Qlt_le_weak _ _ Hn)).
  - split; [tauto|]. split; [split; [congruence|] | split; [congruence|]].
    + intros H. exfalso. apply (Qlt_not_le _ _ H), Qlt_le_weak, Hp. reflexivity.
    + intros H. exfalso. apply (Qlt_irrefl x). rewrite H at 1. apply Hp. reflexivity.
  - split; [split; [congruence|] |]. 
    + intros H. exfalso. apply (Qlt_not_le _ _ H), Qlt_le_weak, Hn. reflexivity.
    + split; [tauto|]. split; [congruence|].
      intros H. exfalso. apply (Qlt_irrefl x). rewrite H at 2. apply Hn. reflexivity.
  - split; [split; [congruence| intros H; apply Hp in H; discriminate H]|].
    split; [split; [congruence| intros H; apply Hn in H; discriminate H]|].
    split; [intros _|reflexivity].
    destruct (Q_dec x y) as [[H|H]|H]; [apply Hn in H | apply Hp in H | exact H]; discriminate H.
Qed.

End QFacts.

Module CompareExtras.
Import Dashboard DashboardFacts CompareView QFacts.
#[local] Open Scope Q_scope.

Lemma count_question_swap (a b : string) (aw bw t : nat) (q : Question) :
  count_question b a (bw, aw, t) q =
  match count_question a b (aw, bw, t) q with
  | Ok (x, y, z) => Ok (y, x, z)
  | Throw => Throw
  end.
Proof.
  unfold count_question.
  destruct (responses q !! a) as [ra|], (responses q !! b) as [rb|]; try reflexivity.
  destruct (grade ra) as [ga|], (grade rb) as [gb|]; js_unfold; try reflexivity.
  destruct (Qgtb (average gb) (average ga)) eqn:E1,
           (Qgtb (average ga) (average gb)) eqn:E2; try reflexivity.
  apply Qgtb_asym in E1. congruence.
Qed.

Lemma forEach_count_swap (a b : string) (l : list Question) (aw bw t : nat) :
  forEach_js (count_question b a) l (bw, aw, t) =
  match forEach_js (count_question a b) l (aw, bw, t) with
  | Ok (x, y, z) => Ok (y, x, z)
  | Throw => Throw
  end.
Proof.
  revert aw bw t. induction l as [|q l IH]; intros aw bw t; [reflexivity|].
  cbn [forEach_js]. cbv [mbind js_bind]. rewrite count_question_swap.
  destruct (count_question a b (aw, bw, t) q) as [[[x y] z]|]; [apply IH|reflexivity].
Qed.

(** Swapping the two selected models of the compare page swaps the win
    counts, keeps the ties, negates the three differences, and keeps a
    [null] comparison or a thrown TypeError as it is. *)
Theorem comparison_swap (d : option EvaluationData) (a b : string) :
  match comparison d a b, comparison d b a with
  | Ok None, Ok None => True
  | Ok (Some c), Ok (Some c') =>
      scoreDiff c' == - scoreDiff c /\ latencyDiff c' == - latencyDiff c /\
      costDiff c' == - costDiff c /\
      modelAWins c' = modelBWins c /\ modelBWins c' = modelAWins c /\ ties c' = ties c
  | Throw, Throw => True
  | _, _ => False
  end.
Proof.
  destruct d as [d|]; [|exact I]. unfold comparison.
  destruct (models d !! a) as [mA|], (models d !! b) as [mB|]; try exact I.
  rewrite (forEach_count_swap a b (questions d) 0 0 0).
  destruct (forEach_js (count_question a b) (questions d) (0, 0, 0)%nat) as [[[x y] z]|];
    cbv [mbind js_bind mret js_ret]; [|exact I].
  cbn [scoreDiff latencyDiff costDiff modelAWins modelBWins ties].
  split; [ring|]. split; [ring|]. split; [ring|]. auto.
Qed.

Lemma comparison_diffs (d : EvaluationData) (a b : string) (c : Comparison) :
  comparison (Some d) a b = Ok (Some c) ->
  exists mA mB, models d !! a = Some mA /\ models d !! b = Some mB /\
    scoreDiff c = avg_score mA - avg_score mB /\
    latencyDiff c = avg_latency_ms mA - avg_latency_ms mB /\
    costDiff c = total_cost (costs mA) - total_cost (costs mB).
Proof.
  unfold comparison.
  destruct (models d !! a) as [mA|], (models d !! b) as [mB|];
    try (intros H; discriminate H).
  destruct (forEach_js (count_question a b) (questions d) (0, 0, 0)%nat) as [[[x y] z]|];
    cbv [mbind js_bind mret js_ret]; intros H; [|discriminate H].
  injection H as <-. exists mA, mB. cbn. auto.
Qed.

Lemma diff_pos (x y : Q) : Qgtb (x - y) 0 = true <-> y < x.
Proof.
  rewrite Qgtb_iff, (Qlt_minus_iff y x). reflexivity.
Qed.

Lemma diff_neg (x y : Q) : Qgtb 0 (x - y) = true <-> x < y.
Proof.
  rewrite Qgtb_iff. rewrite (Qlt_minus_iff x y), (Qlt_minus_iff (x - y) 0).
  unfold Qminus. split; intros H; (eapply Qlt_le_trans; [exact H|]); apply Qle_lteq; right; ring.
Qed.

(** The labels under the score, latency and cost differences of the compare
    page name which selected model is higher, faster or cheaper, and read
    "Equal" exactly when the two values are equal. *)
Theorem comparison_labels (d : EvaluationData) (a b : string) (c : Comparison)
    (mA mB : ModelSummary) :
  models d !! a = Some mA -> models d !! b = Some mB ->
  comparison (Some d) a b = Ok (Some c) ->
  (score_label c = "Model A higher" <-> avg_score mB < avg_score mA) /\
  (score_label c = "Model B higher" <-> avg_score mA < avg_score mB) /\
  (score_label c = "Equal" <-> avg_score mA == avg_score mB) /\
  (latency_label c = "Model A faster" <-> avg_latency_ms mA < avg_latency_ms mB) /\
  (latency_label c = "Model B faster" <-> avg_latency_ms mB < avg_latency_ms mA) /\
  (latency_label c = "Equal" <-> avg_latency_ms mA == avg_latency_ms mB) /\
  (cost_label c = "Model A cheaper" <-> total_cost (costs mA) < total_cost (costs mB)) /\
  (cost_label c = "Model B cheaper" <-> total_cost (costs mB) < total_cost (costs mA)) /\
  (cost_label c = "Equal" <-> total_cost (costs mA) == total_cost (costs mB)).
Proof.
  intros HA HB Hc. apply comparison_diffs in Hc as (mA' & mB' & HA' & HB' & Hs & Hl & Hk).
  rewrite HA in HA'. rewrite HB in HB'. injection HA' as <-. injection HB' as <-.
  unfold score_label, latency_label, cost_label. rewrite Hs, Hl, Hk.
  destruct (three_way_label (Qgtb (avg_score mA - avg_score mB) 0)
              (Qgtb 0 (avg_score mA - avg_score mB))
              "Model A higher" "Model B higher" "Equal" (avg_score mA) (avg_score mB))
    as (S1 & S2 & S3); try discriminate; [apply diff_pos | apply diff_neg |].
  destruct (three_way_label (Qgtb 0 (avg_latency_ms mA - avg_latency_ms mB))
              (Qgtb (avg_latency_ms mA - avg_latency_ms mB) 0)
              "Model A faster" "Model B faster" "Equal" (avg_latency_ms mB) (avg_latency_ms mA))
    as (L1 & L2 & L3); try discriminate; [apply diff_neg | apply diff_pos |].
  destruct (three_way_label (Qgtb 0 (total_cost (costs mA) - total_cost (costs mB)))
              (Qgtb (total_cost (costs mA) - total_cost (costs mB)) 0)
              "Model A cheaper" "Model B cheaper" "Equal"
              (total_cost (costs mB)) (total_cost (costs mA)))
    as (K1 & K2 & K3); try discriminate; [apply diff_neg | apply diff_pos |].
  rewrite L3, K3. repeat split; try tauto; intros H; symmetry; exact H.
Qed.

End CompareExtras.

Module RowExtras.
Import Dashboard DashboardFacts CompareView DetailsView QFacts CompareExtras.
#[local] Open Scope Q_scope.

Lemma count_winner_cons (w : string) (r : option (Z * string * Badge)) rs :
  count_winner w (r :: rs) = (count_winner w [r] + count_winner w rs)%nat.
Proof.
  unfold count_winner. cbn [List.filter].
  destruct r as [[[i w'] bdg]|]; [destruct (String.eqb w' w)|]; reflexivity.
Qed.

Lemma count_question_row (a b : string) (aw bw t : nat) (q : Question) :
  match count_question a b (aw, bw, t) q, question_row a b q with
  | Ok (x, y, z), Ok r =>
      x = (aw + count_winner "A" [r])%nat /\ y = (bw + count_winner "B" [r])%nat /\
      z = (t + count_winner "tie" [r])%nat /\ badge_ok r
  | Throw, Throw => True
  | _, _ => False
  end.
Proof.
  unfold count_question, question_row.
  destruct (responses q !! a) as [ra|], (responses q !! b) as [rb|];
    try (cbv [mret js_ret]; unfold count_winner; cbn; repeat split; lia).
  unfold row_winner, row_badge.
  destruct (grade ra) as [ga|], (grade rb) as [gb|]; js_unfold; try exact I.
  destruct (Qgtb (average ga) (average gb)) eqn:E1; cbn -[toFixed].
  - apply Qgtb_iff in E1. rewrite Qlt_minus_iff in E1.
    destruct (toFixed_nonneg 1 (average ga - average gb)) as (n & -> & Hn);
      [apply Qlt_le_weak, E1|].
    repeat split; lia.
  - destruct (Qgtb (average gb) (average ga)) eqn:E2; cbn -[toFixed].
    + apply Qgtb_iff in E2. rewrite Qlt_minus_iff in E2.
      destruct (toFixed_nonneg 1 (average gb - average ga)) as (n & -> & Hn);
        [apply Qlt_le_weak, E2|].
      repeat split; lia.
    + repeat split; lia.
Qed.

(** On the compare page, the rows of the question-by-question list and the
    win/tie counts are computed from the same responses: when the
    comparison is shown, the number of rows won by A, won by B and tied are
    modelAWins, modelBWins and ties, and every "A +x" or "B +x" badge shows
    x, rounded to one decimal, without a minus sign; when counting throws, so does the list. *)
Theorem rows_agree_with_counts (d : EvaluationData) (a b : string) :
  match comparison (Some d) a b, question_rows d a b with
  | Ok (Some c), Ok rs =>
      modelAWins c = count_winner "A" rs /\ modelBWins c = count_winner "B" rs /\
      ties c = count_winner "tie" rs /\ Forall badge_ok rs
  | Ok None, _ => models d !! a = None \/ models d !! b = None
  | Throw, Throw => True
  | _, _ => False
  end.
Proof.
  assert (Hl : forall l aw bw t,
    match forEach_js (count_question a b) l (aw, bw, t), map_js (question_row a b) l with
    | Ok (x, y, z), Ok rs =>
        x = (aw + count_winner "A" rs)%nat /\ y = (bw + count_winner "B" rs)%nat /\
        z = (t + count_winner "tie" rs)%nat /\ Forall badge_ok rs
    | Throw, Throw => True
    | _, _ => False
    end).
  { induction l as [|q l IH]; intros aw bw t.
    - cbn. unfold count_winner. cbn. repeat split; try lia. constructor.
    - cbn [forEach_js map_js]. cbv [mbind js_bind mret js_ret].
      pose proof (count_question_row a b aw bw t q) as Hq.
      destruct (count_question a b (aw, bw, t) q) as [[[x y] z]|],
               (question_row a b q) as [r|]; try contradiction; [|exact I].
      destruct Hq as (-> & -> & -> & Hr).
      specialize (IH (aw + count_winner "A" [r]) (bw + count_winner "B" [r])
                     (t + count_winner "tie" [r]))%nat.
      destruct (forEach_js (count_question a b) l _) as [[[x' y'] z']|],
               (map_js (question_row a b) l) as [rs|]; try contradiction; [|exact I].
      destruct IH as (-> & -> & -> & Hrs).
      rewrite !(count_winner_cons _ r rs). repeat split; try lia. constructor; assumption. }
  unfold comparison, question_rows.
  destruct (models d !! a) as [mA|], (models d !! b) as [mB|]; cbv [mret js_ret]; auto.
  specialize (Hl (questions d) 0 0 0)%nat.
  destruct (forEach_js (count_question a b) (questions d) (0, 0, 0)%nat) as [[[x y] z]|],
           (map_js (question_row a b) (questions d)) as [rs|];
    cbv [mbind js_bind mret js_ret]; try contradiction; [|exact I].
  cbn [modelAWins modelBWins ties]. destruct Hl as (-> & -> & -> & Hrs). auto.
Qed.

End RowExtras.

Module DetailsExtras.
Import Dashboard DashboardFacts CompareView DetailsView QFacts.

(** On every question, the details page's winner indicator and the compare
    page's row badge for the same two models name the same winner: both
    pages skip the same questions and throw on the same null grades. *)
Theorem details_winner_matches_compare (a b : string) (q : Question) :
  match details_card a b q, question_row a b q with
  | Ok (Some (_, _, w)), Ok (Some (i, w', _)) => w' = winner_name w /\ i = id q
  | Ok None, Ok None => True
  | Throw, Throw => True
  | _, _ => False
  end.
Proof.
  unfold details_card, question_row.
  destruct (responses q !! a) as [ra|], (responses q !! b) as [rb|]; try exact I.
  unfold winner_indicator, row_winner, row_badge, grade_display.
  destruct (grade ra) as [ga|], (grade rb) as [gb|]; js_unfold; try exact I.
  destruct (Qgtb (average ga) (average gb)); cbn; [auto|].
  destruct (Qgtb (average gb) (average ga)); cbn; auto.
Qed.

(** When the data file was read, its model_keys has at least two entries,
    the first two are non-empty and both have a summary in models, the
    details page either shows the question cards of those two keys, headed
    "<name1> vs <name2>", or throws, and it throws exactly when a card of
    those two models throws. In every other case the page shows its
    "No comparison data" panel under "Detailed Results". *)
Theorem details_page_cases (data : option EvaluationData) :
  match details_page data with
  | Ok (title, Some cards) =>
      exists d k1 k2 rest m1 m2, data = Some d /\
        model_keys (metadata d) = k1 :: k2 :: rest /\ k1 <> "" /\ k2 <> "" /\
        models d !! k1 = Some m1 /\ models d !! k2 = Some m2 /\
        title = name m1 +:+ " vs " +:+ name m2 /\ details_cards d k1 k2 = Ok cards
  | Ok (title, None) =>
      title = "Detailed Results" /\
      forall d k1 k2 rest, data = Some d -> model_keys (metadata d) = k1 :: k2 :: rest ->
        k1 = "" \/ k2 = "" \/ models d !! k1 = None \/ models d !! k2 = None
  | Throw =>
      exists d k1 k2 rest m1 m2, data = Some d /\
        model_keys (metadata d) = k1 :: k2 :: rest /\ k1 <> "" /\ k2 <> "" /\
        models d !! k1 = Some m1 /\ models d !! k2 = Some m2 /\ details_cards d k1 k2 = Throw
  end.
Proof.
  destruct data as [d|].
  2: { cbn. split; [reflexivity|]. intros d' k1 k2 rest H. discriminate H. }
  unfold details_page.
  destruct (model_keys (metadata d)) as [|k1 [|k2 rest]] eqn:Ek.
  - cbn. split; [reflexivity|]. intros d' k1 k2 rest H. injection H as <-. congruence.
  - cbn [take head nth_error]. destruct (model_of d (Some k1)); cbn;
      (split; [reflexivity|]); intros d' k1' k2 rest H; injection H as <-; congruence.
  - cbn [take head nth_error model_of].
    destruct (String.eqb k1 "") eqn:E1.
    { split; [reflexivity|]. intros d' k1' k2' rest' H Hk. injection H as <-.
      rewrite Ek in Hk. injection Hk as <- <- <-. apply String.eqb_eq in E1. auto. }
    destruct (models d !! k1) as [m1|] eqn:M1.
    2: { split; [reflexivity|]. intros d' k1' k2' rest' H Hk. injection H as <-.
         rewrite Ek in Hk. injection Hk as <- <- <-. auto. }
    destruct (String.eqb k2 "") eqn:E2.
    { split; [reflexivity|]. intros d' k1' k2' rest' H Hk. injection H as <-.
      rewrite Ek in Hk. injection Hk as <- <- <-. apply String.eqb_eq in E2. auto. }
    destruct (models d !! k2) as [m2|] eqn:M2.
    2: { split; [reflexivity|]. intros d' k1' k2' rest' H Hk. injection H as <-.
         rewrite Ek in Hk. injection Hk as <- <- <-. auto. }
    apply String.eqb_neq in E1, E2.
    destruct (details_cards d k1 k2) as [cards|] eqn:Ec; cbv [mbind js_bind mret js_ret].
    + exists d, k1, k2, rest, m1, m2. auto 10.
    + exists d, k1, k2, rest, m1, m2. auto 10.
Qed.

End DetailsExtras.

Module LeaderboardExtras.
Import ModelsPage ModelsViews ModelsClaims ModelsClaims2 Leaderboard QFacts CompareExtras.
#[local] Open Scope Q_scope.

Lemma insert_by_perm {A : Type} (cmp : A -> A -> Q) (x : A) (l : list A) :
  insert_by cmp x l ≡ₚ x :: l.
Proof.
  induction l as [|y l IH]; cbn; [reflexivity|].
  destruct (Qgtb 0 (cmp x y)); [reflexivity|].
  rewrite IH. apply perm_swap.
Qed.

Lemma fold_insert_perm {A : Type} (cmp : A -> A -> Q) (l acc : list A) :
  fold_left (fun acc x => insert_by cmp x acc) l acc ≡ₚ acc ++ l.
Proof.
  revert acc. induction l as [|x l IH]; intros acc; cbn; [rewrite app_nil_r; reflexivity|].
  rewrite IH, insert_by_perm. apply Permutation_middle.
Qed.

Lemma array_sort_perm {A : Type} (cmp : A -> A -> Q) (l : list A) : array_sort cmp l ≡ₚ l.
Proof. unfold array_sort. rewrite fold_insert_perm. reflexivity. Qed.

Lemma by_score_before (x y : NormalizedModel) :
  Qgtb 0 (by_score x y) = true <-> avg_score y < avg_score x.
Proof. unfold by_score. apply diff_neg. Qed.

Lemma by_score_after (x y : NormalizedModel) :
  Qgtb 0 (by_score x y) = false <-> avg_score x <= avg_score y.
Proof.
  unfold by_score. rewrite Qgtb_false, (Qle_minus_iff (avg_score x) (avg_score y)).
  split; intros H; (eapply Qle_trans; [exact H|]); apply Qle_lteq; right; ring.
Qed.

Lemma insert_sorted (x : NormalizedModel) (l : list NormalizedModel) :
  StronglySorted score_desc l -> StronglySorted score_desc (insert_by by_score x l).
Proof.
  induction l as [|y l IH]; intros HS; cbn.
  - constructor; constructor.
  - inversion HS as [|y' l' Hl Hall]; subst.
    destruct (Qgtb 0 (by_score x y)) eqn:E.
    + apply by_score_before in E. constructor; [exact HS|].
      constructor; [apply Qlt_le_weak, E|].
      apply List.Forall_forall. intros z Hz. rewrite List.Forall_forall in Hall.
      apply (Qle_trans _ (avg_score y)); [apply (Hall z Hz) | apply Qlt_le_weak, E].
    + apply by_score_after in E. constructor; [apply IH, Hl|].
      apply List.Forall_forall. intros z Hz.
      apply (Permutation_in _ (insert_by_perm by_score x l)) in Hz.
      destruct Hz as [<-|Hz]; [exact E|]. rewrite List.Forall_forall in Hall. apply Hall, Hz.
Qed.

Lemma fold_insert_sorted (l acc : list NormalizedModel) :
  StronglySorted score_desc acc ->
  StronglySorted score_desc (fold_left (fun acc x => insert_by by_score x acc) l acc).
Proof.
  revert acc. induction l as [|x l IH]; intros acc HS; cbn; [exact HS|].
  apply IH, insert_sorted, HS.
Qed.

Lemma array_sort_sorted (l : list NormalizedModel) :
  StronglySorted score_desc (array_sort by_score l).
Proof. apply fold_insert_sorted. constructor. Qed.

Lemma filter_none {A : Type} (p : A -> bool) (l : list A) :
  (forall z, In z l -> p z = false) -> List.filter p l = [].
Proof.
  induction l as [|z l IH]; intros H; cbn; [reflexivity|].
  rewrite (H z (or_introl eq_refl)). apply IH. intros z' Hz'. apply H. right. exact Hz'.
Qed.

Lemma insert_filter (s : Q) (x : NormalizedModel) (acc : list NormalizedModel) :
  StronglySorted score_desc acc ->
  List.filter (same_score s) (insert_by by_score x acc)
  = if same_score s x then List.filter (same_score s) acc ++ [x]
    else List.filter (same_score s) acc.
Proof.
  intros HS. set (p := same_score s). induction acc as [|y l IH]; cbn; [destruct (p x); reflexivity|].
  inversion HS as [|y' l' Hl Hall]; subst. rewrite List.Forall_forall in Hall.
  destruct (Qgtb 0 (by_score x y)) eqn:E.
  - apply by_score_before in E. cbn [List.filter].
    destruct (p x) eqn:Px; [|reflexivity].
    assert (Hno : forall z, In z (y :: l) -> p z = false).
    { intros z Hz. unfold p, same_score. apply not_true_iff_false. rewrite Qeq_bool_iff. intros Hzs.
      unfold p, same_score in Px. apply Qeq_bool_iff in Px.
      assert (Hzy : avg_score z <= avg_score y)
        by (destruct Hz as [<-|Hz]; [apply Qle_refl | apply Hall, Hz]).
      apply (Qlt_irrefl (avg_score x)). rewrite Px at 1. rewrite <- Hzs.
      apply (Qle_lt_trans _ _ _ Hzy E). }
    rewrite (Hno y (or_introl eq_refl)), (filter_none p l).
    + reflexivity.
    + intros z Hz. apply Hno. right. exact Hz.
  - cbn [List.filter]. rewrite (IH Hl).
    destruct (p y), (p x); reflexivity.
Qed.

Lemma fold_insert_filter (s : Q) (l acc : list NormalizedModel) :
  StronglySorted score_desc acc ->
  List.filter (same_score s) (fold_left (fun acc x => insert_by by_score x acc) l acc)
  = List.filter (same_score s) acc ++ List.filter (same_score s) l.
Proof.
  revert acc. induction l as [|x l IH]; intros acc HS; cbn.
  - rewrite app_nil_r. reflexivity.
  - rewrite (IH _ (insert_sorted x acc HS)), (insert_filter s x acc HS).
    destruct (same_score s x); [rewrite <- app_assoc; reflexivity | reflexivity].
Qed.

(** The leaderboard of the models page lists the loaded models, each once,
    by non-increasing average score; models with equal scores keep the
    order in which [getAllModels] returned them (the sort is stable). *)
Theorem leaderboard_order (d : DataDir) :
  match models_page d with
  | NoModelData => getAllModels d = []
  | Board _ _ _ _ rows =>
      map row_model rows ≡ₚ getAllModels d /\
      StronglySorted score_desc (map row_model rows) /\
      (forall s, List.filter (same_score s) (map row_model rows)
                 = List.filter (same_score s) (getAllModels d))
  end.
Proof.
  unfold models_page.
  destruct (length (getAllModels d) =? 0)%nat eqn:E.
  - apply Nat.eqb_eq, length_zero_iff_nil in E. exact E.
  - rewrite map_map. cbn. rewrite map_id.
    split; [apply array_sort_perm|]. split; [apply array_sort_sorted|].
    intros s. apply (fold_insert_filter s (getAllModels d) []). constructor.
Qed.

End LeaderboardExtras.

Module LeaderboardStats.
Import ModelsPage ModelsViews ModelsClaims ModelsClaims2 Leaderboard QFacts LeaderboardExtras.
#[local] Open Scope Q_scope.

Lemma fold_max_fin (l : list Q) (a : Q) :
  exists q, fold_left max_step l (Fin a) = Fin q /\ (q = a \/ In q l) /\
    a <= q /\ forall x, In x l -> x <= q.
Proof.
  revert a. induction l as [|x l IH]; intros a; cbn.
  - exists a. split; [reflexivity|]. split; [left; reflexivity|]. split; [apply Qle_refl|].
    intros x [].
  - destruct (Qgtb x a) eqn:E.
    + apply Qgtb_iff in E. destruct (IH x) as (q & Hq & Hin & Hxq & Hall).
      exists q. split; [exact Hq|]. split; [destruct Hin as [->|Hin]; right; [left|right]; auto|].
      split; [apply Qle_trans with x; [apply Qlt_le_weak, E | exact Hxq]|].
      intros y [<-|Hy]; [exact Hxq | apply Hall, Hy].
    + apply Qgtb_false in E. destruct (IH a) as (q & Hq & Hin & Haq & Hall).
      exists q. split; [exact Hq|]. split; [destruct Hin as [->|Hin]; [left|right; right]; auto|].
      split; [exact Haq|].
      intros y [<-|Hy]; [apply Qle_trans with a; assumption | apply Hall, Hy].
Qed.

Lemma fold_min_fin (l : list Q) (a : Q) :
  exists q, fold_left min_step l (Fin a) = Fin q /\ (q = a \/ In q l) /\
    q <= a /\ forall x, In x l -> q <= x.
Proof.
  revert a. induction l as [|x l IH]; intros a; cbn.
  - exists a. split; [reflexivity|]. split; [left; reflexivity|]. split; [apply Qle_refl|].
    intros x [].
  - destruct (Qgtb a x) eqn:E.
    + apply Qgtb_iff in E. destruct (IH x) as (q & Hq & Hin & Hxq & Hall).
      exists q. split; [exact Hq|]. split; [destruct Hin as [->|Hin]; right; [left|right]; auto|].
      split; [apply Qle_trans with x; [exact Hxq | apply Qlt_le_weak, E]|].
      intros y [<-|Hy]; [exact Hxq | apply Hall, Hy].
    + apply Qgtb_false in E. destruct (IH a) as (q & Hq & Hin & Haq & Hall).
      exists q. split; [exact Hq|]. split; [destruct Hin as [->|Hin]; [left|right; right]; auto|].
      split; [exact Haq|].
      intros y [<-|Hy]; [apply Qle_trans with a; assumption | apply Hall, Hy].
Qed.

Lemma math_max_spec (l : list Q) :
  l <> [] -> exists q, math_max l = Fin q /\ In q l /\ forall x, In x l -> x <= q.
Proof.
  destruct l as [|x l]; intros Hl; [congruence|]. unfold math_max. cbn.
  destruct (fold_max_fin l x) as (q & Hq & Hin & Hxq & Hall).
  exists q. split; [exact Hq|]. split; [destruct Hin as [->|Hin]; [left|right]; auto|].
  intros y [<-|Hy]; [exact Hxq | apply Hall, Hy].
Qed.

Lemma math_min_spec (l : list Q) :
  l <> [] -> exists q, math_min l = Fin q /\ In q l /\ forall x, In x l -> q <= x.
Proof.
  destruct l as [|x l]; intros Hl; [congruence|]. unfold math_min. cbn.
  destruct (fold_min_fin l x) as (q & Hq & Hin & Hxq & Hall).
  exists q. split; [exact Hq|]. split; [destruct Hin as [->|Hin]; [left|right]; auto|].
  intros y [<-|Hy]; [exact Hxq | apply Hall, Hy].
Qed.

Lemma attained_min (f : NormalizedModel -> Q) (ms : list NormalizedModel) :
  ms <> [] -> exists m, In m ms /\ math_min (map f ms) = Fin (f m) /\
    forall m', In m' ms -> f m <= f m'.
Proof.
  intros Hne. destruct (math_min_spec (map f ms)) as (q & Hq & Hin & Hall).
  { destruct ms; [congruence | discriminate]. }
  apply in_map_iff in Hin as (m & <- & Hm). exists m. split; [exact Hm|]. split; [exact Hq|].
  intros m' Hm'. apply Hall, in_map, Hm'.
Qed.

(** The stats row of the models page: "Total Models" is the number of rows
    of the leaderboard; "Highest Score" is a score no model exceeds, equal to
    the score of the first row, and shown as that score rounded to one
    decimal (the row itself shows two); "Fastest Avg" and "Lowest Cost" are the latency and
    the cost of a listed model that no listed model undercuts. *)
Theorem leaderboard_stats (d : DataDir) :
  match models_page d with
  | NoModelData => True
  | Board n hi fa lo rows =>
      n = length rows /\ n = length (getAllModels d) /\
      (exists r rs q, rows = r :: rs /\ hi = Fin q /\ q == avg_score (row_model r) /\
         toFixed 1 q = toFixed 1 (avg_score (row_model r)) /\
         forall m, In m (getAllModels d) -> avg_score m <= q) /\
      (exists m, In m (getAllModels d) /\ fa = Fin (avg_latency_ms m) /\
         forall m', In m' (getAllModels d) -> avg_latency_ms m <= avg_latency_ms m') /\
      (exists m, In m (getAllModels d) /\ lo = Fin (n_total_cost m) /\
         forall m', In m' (getAllModels d) -> n_total_cost m <= n_total_cost m')
  end.
Proof.
  unfold models_page.
  destruct (length (getAllModels d) =? 0)%nat eqn:E; [exact I|].
  apply Nat.eqb_neq in E.
  assert (Hne : getAllModels d <> []) by (intros H; apply E; rewrite H; reflexivity).
  split; [rewrite length_map, (Permutation_length (array_sort_perm by_score _)); reflexivity|].
  split; [reflexivity|].
  split; [|split; apply attained_min; exact Hne].
  pose proof (array_sort_perm by_score (getAllModels d)) as Hp.
  pose proof (array_sort_sorted (getAllModels d)) as Hs.
  destruct (array_sort by_score (getAllModels d)) as [|r0 rs] eqn:Ea.
  { apply Permutation_nil in Hp. contradiction. }
  destruct (math_max_spec (map avg_score (getAllModels d))) as (q & Hq & Hin & Hall).
  { destruct (getAllModels d); [congruence | discriminate]. }
  exists (mkRow r0 (costEfficiency r0)), (map (fun m => mkRow m (costEfficiency m)) rs), q.
  split; [reflexivity|]. split; [exact Hq|]. cbn [row_model].
  assert (Heq : q == avg_score r0).
  2: { split; [exact Heq|]. split; [apply toFixed_comp, Heq|].
       intros m Hm. apply Hall, in_map, Hm. }
  inversion Hs as [|r0' rs' _ Hrs]; subst. rewrite List.Forall_forall in Hrs.
  apply Qle_antisym.
  - apply in_map_iff in Hin as (m & <- & Hm).
    apply (Permutation_in _ (Permutation_sym Hp)) in Hm.
    destruct Hm as [<-|Hm]; [apply Qle_refl | apply (Hrs m Hm)].
  - apply Hall, in_map. apply (Permutation_in _ Hp). left. reflexivity.
Qed.

(** The colour and the background of a score badge are those of the first
    legend entry whose threshold the score reaches ("Poor" when it reaches
    none). *)
Theorem score_colors_follow_legend (s : Q) :
  exists i hex th, legend !! i = Some (hex, th) /\
    getScoreColor s = "text-[" +:+ hex +:+ "]" /\
    getScoreBg s = "bg-[" +:+ hex +:+ "]/15" /\
    match th with Some t => t <= s | None => True end /\
    forall j hex' t', (j < i)%nat -> legend !! j = Some (hex', Some t') -> s < t'.
Proof.
  unfold getScoreColor, getScoreBg.
  destruct (Qgtb (9 # 2) s) eqn:E1; cbn [negb].
  2: { apply Qgtb_false in E1. exists 0%nat, "#4CAF79", (Some (9 # 2)).
       repeat split; [exact E1|]. intros j hex' t' Hj. lia. }
  apply Qgtb_iff in E1.
  destruct (Qgtb 4 s) eqn:E2; cbn [negb].
  2: { apply Qgtb_false in E2. exists 1%nat, "#5E6AD2", (Some 4).
       repeat split; [exact E2|]. intros j hex' t' Hj Hl.
       destruct j as [|j]; [|lia]. injection Hl as <- <-. exact E1. }
  apply Qgtb_iff in E2.
  destruct (Qgtb (7 # 2) s) eqn:E3; cbn [negb].
  2: { apply Qgtb_false in E3. exists 2%nat, "#E5A913", (Some (7 # 2)).
       repeat split; [exact E3|]. intros j hex' t' Hj Hl.
       destruct j as [|[|j]]; [| |lia]; injection Hl as <- <-; assumption. }
  apply Qgtb_iff in E3.
  exists 3%nat, "#E5484D", None. repeat split.
  intros j hex' t' Hj Hl.
  destruct j as [|[|[|j]]]; [| | |lia]; injection Hl as <- <-; assumption.
Qed.

Lemma first_occurrences_nil (ms : list LegacyModelSummary) :
  first_occurrences [] ms = [] <-> ms = [].
Proof.
  destruct ms as [|m ms]; [split; reflexivity|]. cbn. split; [|discriminate].
  destruct (seen_b [] (l_model_id m)); discriminate.
Qed.

Lemma legacy_models_nil (d : DataDir) : legacy_models d = [] <-> legacy_json_files d = [].
Proof.
  unfold legacy_models. destruct (legacy_json_files d); cbn; split; congruence.
Qed.

(** For a data directory that exists and whose files parse, the models page
    shows its "No model data available" panel exactly when
    evaluation_results.json is in the data directory and its models mapping
    is empty, or it is not there and no other .json file is. *)
Theorem models_page_empty (d : DataDir) :
  models_page d = NoModelData <->
  (("evaluation_results.json" ∈ files d) /\ u_models (unified_file d) = []) \/
  (("evaluation_results.json" ∉ files d) /\ legacy_json_files d = []).
Proof.
  assert (Hpage : models_page d = NoModelData <-> getAllModels d = []).
  { unfold models_page. destruct (getAllModels d) as [|m ms]; cbn; split; congruence. }
  rewrite Hpage. destruct (existsb (String.eqb "evaluation_results.json") (files d)) eqn:Hf.
  - pose proof Hf as Hin. apply includes_spec in Hin.
    assert (Hu : getAllModels d = map normalize_unified (u_models (unified_file d))).
    { unfold getAllModels. rewrite Hf. reflexivity. }
    rewrite Hu. split.
    + intros H. left. split; [exact Hin|]. apply map_eq_nil in H. exact H.
    + intros [[_ H]|[H _]]; [rewrite H; reflexivity | contradiction].
  - assert (Hnot : "evaluation_results.json" ∉ files d).
    { intros H. apply includes_spec in H. congruence. }
    rewrite (getAllModels_legacy d Hf), <- legacy_models_nil, <- first_occurrences_nil.
    split.
    + intros H. right. split; [exact Hnot|]. apply map_eq_nil in H. exact H.
    + intros [[H _]|[_ H]]; [contradiction | rewrite H; reflexivity].
Qed.

End LeaderboardStats.

Module CrossPage.
Import Dashboard DashboardFacts CompareView DetailsView QFacts DetailsExtras.

Lemma count_cards_cons (w : Winner) c cs :
  count_cards w (c :: cs) = (count_cards w [c] + count_cards w cs)%nat.
Proof.
  unfold count_cards. cbn [List.filter].
  destruct c as [[[g1 g2] w']|]; [destruct (String.eqb _ _)|]; reflexivity.
Qed.

Lemma count_question_card (a b : string) (aw bw t : nat) (q : Question) :
  match count_question a b (aw, bw, t) q, details_card a b q with
  | Ok (x, y, z), Ok c =>
      x = (aw + count_cards Model1Higher [c])%nat /\ y = (bw + count_cards Model2Higher [c])%nat /\
      z = (t + count_cards Tie [c])%nat
  | Throw, Throw => True
  | _, _ => False
  end.
Proof.
  unfold count_question, details_card.
  destruct (responses q !! a) as [ra|], (responses q !! b) as [rb|];
    try (cbv [mret js_ret]; unfold count_cards; cbn; repeat split; lia).
  unfold winner_indicator, grade_display.
  destruct (grade ra) as [ga|], (grade rb) as [gb|]; js_unfold; try exact I.
  destruct (Qgtb (average ga) (average gb)); cbn; [repeat split; lia|].
  destruct (Qgtb (average gb) (average ga)); cbn; repeat split; lia.
Qed.

Lemma forEach_count_cards (a b : string) (l : list Question) (aw bw t : nat) :
  match forEach_js (count_question a b) l (aw, bw, t), map_js (details_card a b) l with
  | Ok (x, y, z), Ok cs =>
      x = (aw + count_cards Model1Higher cs)%nat /\ y = (bw + count_cards Model2Higher cs)%nat /\
      z = (t + count_cards Tie cs)%nat
  | Throw, Throw => True
  | _, _ => False
  end.
Proof.
  revert aw bw t. induction l as [|q l IH]; intros aw bw t.
  - cbn. unfold count_cards. cbn. repeat split; lia.
  - cbn [forEach_js map_js]. cbv [mbind js_bind mret js_ret].
    pose proof (count_question_card a b aw bw t q) as Hq.
    destruct (count_question a b (aw, bw, t) q) as [[[x y] z]|],
             (details_card a b q) as [c|]; try contradiction; [|exact I].
    destruct Hq as (-> & -> & ->).
    specialize (IH (aw + count_cards Model1Higher [c]) (bw + count_cards Model2Higher [c])
                   (t + count_cards Tie [c]))%nat.
    destruct (forEach_js (count_question a b) l _) as [[[x' y'] z']|],
             (map_js (details_card a b) l) as [cs|]; try contradiction; [|exact I].
    destruct IH as (-> & -> & ->).
    rewrite !(count_cards_cons _ c cs). repeat split; lia.
Qed.

(** On the same evaluation_results.json, when the details page shows its
    question cards, the compare page, once loaded, selects by default the
    same two models, the first two entries of model_keys that the details
    page compares, and shows a comparison whose win and tie counts are the
    tallies of the details page's winner indicators; when the details page
    throws, the compare page selects those same two keys and throws too. *)
Theorem default_pair_agrees (d : EvaluationData) :
  match details_page (Some d), page_comparison (loadData (Body d) initial_state) with
  | Ok (_, Some cards), Ok (Some c) =>
      (exists k1 k2 rest, model_keys (metadata d) = k1 :: k2 :: rest /\
         details_cards d k1 k2 = Ok cards /\
         st_modelAKey (loadData (Body d) initial_state) = k1 /\
         st_modelBKey (loadData (Body d) initial_state) = k2) /\
      modelAWins c = count_cards Model1Higher cards /\
      modelBWins c = count_cards Model2Higher cards /\
      ties c = count_cards Tie cards
  | Ok (_, Some _), _ => False
  | Throw, Throw =>
      exists k1 k2 rest, model_keys (metadata d) = k1 :: k2 :: rest /\
        details_cards d k1 k2 = Throw /\
        st_modelAKey (loadData (Body d) initial_state) = k1 /\
        st_modelBKey (loadData (Body d) initial_state) = k2
  | Throw, _ => False
  | Ok (_, None), _ => True
  end.
Proof.
  assert (Hload : forall k1 k2 rest, model_keys (metadata d) = k1 :: k2 :: rest ->
            st_modelAKey (loadData (Body d) initial_state) = k1 /\
            st_modelBKey (loadData (Body d) initial_state) = k2 /\
            page_comparison (loadData (Body d) initial_state) = comparison (Some d) k1 k2).
  { intros k1 k2 rest Hk. unfold page_comparison, loadData. cbn. rewrite Hk. auto. }
  pose proof (details_page_cases (Some d)) as Hcases.
  destruct (details_page (Some d)) as [[title [cards|]]|]; [| exact I |].
  - destruct Hcases as (d' & k1 & k2 & rest & m1 & m2 & Hd & Hk & _ & _ & H1 & H2 & _ & Hc).
    injection Hd as <-. destruct (Hload k1 k2 rest Hk) as (HA & HB & ->).
    unfold comparison. rewrite H1, H2.
    pose proof (forEach_count_cards k1 k2 (questions d) 0 0 0) as Hl.
    unfold details_cards in Hc. rewrite Hc in Hl.
    destruct (forEach_js (count_question k1 k2) (questions d) (0, 0, 0)%nat) as [[[x y] z]|];
      [|contradiction].
    cbv [mbind js_bind mret js_ret]. cbn [modelAWins modelBWins ties].
    split; [exists k1, k2, rest; auto|]. exact Hl.
  - destruct Hcases as (d' & k1 & k2 & rest & m1 & m2 & Hd & Hk & _ & _ & H1 & H2 & Hc).
    injection Hd as <-. destruct (Hload k1 k2 rest Hk) as (HA & HB & ->).
    unfold comparison. rewrite H1, H2.
    pose proof (forEach_count_cards k1 k2 (questions d) 0 0 0) as Hl.
    unfold details_cards in Hc. rewrite Hc in Hl.
    destruct (forEach_js (count_question k1 k2) (questions d) (0, 0, 0)%nat) as [[[x y] z]|];
      [contradiction|].
    exists k1, k2, rest. auto.
Qed.

End CrossPage.

Module ExtraWitnesses.
Import Dashboard CompareView Fixtures CompareExtras.

Lemma comparison_labels_witness :
  comparison (Some data_full) "a" "b" =
    Ok (Some (mkComparison (avg_score summary_a - avg_score summary_b)
                (avg_latency_ms summary_a - avg_latency_ms summary_b)
                (total_cost (costs summary_a) - total_cost (costs summary_b)) 1 0 1)) /\
  (score_label (mkComparison (avg_score summary_a - avg_score summary_b)
                (avg_latency_ms summary_a - avg_latency_ms summary_b)
                (total_cost (costs summary_a) - total_cost (costs summary_b)) 1 0 1)
     = "Model A higher" <-> (avg_score summary_b < avg_score summary_a)%Q).
Proof.
  split; [vm_compute; reflexivity|].
  refine (proj1 (comparison_labels data_full "a" "b" _ summary_a summary_b _ _ _));
    vm_compute; reflexivity.
Defined.

End ExtraWitnesses.
